(** * Usage monitor: polling engine, header parsing, countdown formatting
    and the window's poll scheduler (src/poller.rs, src/models.rs,
    src/window.rs), as a shallow embedding.

    Conventions of the embedding:
    - [f64] is the kernel's primitive binary64 float ([PrimFloat]), so
      [==] and [*] are IEEE operations as in Rust;
    - a [SystemTime] is an integer count of nanoseconds since the Unix
      epoch and a [Duration] a non-negative count of nanoseconds;
    - [u32]/[u64]/[i64] values are [Z] with the Rust wrap/saturation
      written out where the code uses it;
    - the standard library's text-to-number parsers ([str::parse::<f64>],
      [str::parse::<i64>]) and the [{:.0}] float formatter are left as
      parameters of the embedding (Section variables): every statement
      below holds for any parser/formatter;
    - network calls (the probe POST, the refresh POST) are inputs: the
      outcome of the call is a parameter of the function that makes it. *)

From Stdlib Require Import ZArith String Ascii List Bool Lia PrimFloat.
Import ListNotations.
Open Scope string_scope.
Open Scope Z_scope.

(** Rust's [Result]. *)
Inductive result (A E : Type) : Type :=
| Ok : A -> result A E
| Err : E -> result A E.
Arguments Ok {A E} _.
Arguments Err {A E} _.

(** ** src/models.rs *)
Module Models.

(** [SystemTime] as nanoseconds since the Unix epoch. *)
Definition SystemTime := Z.

Record UsageSection := mkSection {
  percentage : float;
  resets_at : option SystemTime
}.

Record UsageData := mkUsage {
  session : UsageSection;
  weekly : UsageSection
}.

(** [#[derive(Default)]]: [0.0] and [None]. *)
Definition section_default : UsageSection := mkSection 0%float None.
Definition usage_default : UsageData :=
  mkUsage section_default section_default.

Definition set_percentage (s : UsageSection) (p : float) : UsageSection :=
  mkSection p (resets_at s).
Definition set_resets_at (s : UsageSection) (t : option SystemTime)
  : UsageSection := mkSection (percentage s) t.

End Models.

(** ** Text helpers used by the code through [format!] and ureq *)
Module Text.

Definition ascii_lower (c : ascii) : ascii :=
  let n := nat_of_ascii c in
  if (65 <=? n)%nat && (n <=? 90)%nat then ascii_of_nat (n + 32) else c.

(** [str::eq_ignore_ascii_case]. *)
Fixpoint eq_ignore_ascii_case (a b : string) : bool :=
  match a, b with
  | EmptyString, EmptyString => true
  | String x a', String y b' =>
      Ascii.eqb (ascii_lower x) (ascii_lower y) && eq_ignore_ascii_case a' b'
  | _, _ => false
  end.

Definition digit (d : Z) : ascii := ascii_of_nat (48 + Z.to_nat d).

Fixpoint dec_aux (fuel : nat) (n : Z) (acc : string) : string :=
  match fuel with
  | O => acc
  | S f =>
      let acc' := String (digit (n mod 10)) acc in
      if Z.ltb n 10 then acc' else dec_aux f (n / 10) acc'
  end.

(** [format!("{n}")] for an unsigned integer ([u64] has at most 20
    digits, so 32 steps always suffice). *)
Definition dec (n : Z) : string := dec_aux 32 n "".

End Text.

(** ** src/poller.rs *)
Module Poller.
Import Models.

Definition NANOS_PER_SEC : Z := 1000000000.

Definition MODEL_FALLBACK_CHAIN : list string :=
  [ "claude-3-haiku-20240307"; "claude-haiku-4-5-20251001" ].

Inductive PollError := NoCredentials | TokenExpired | AllModelsFailed.

(** A [ureq::Response], as far as the poller reads it: its headers in
    order (name, value). *)
Definition Response := list (string * string).

(** [Response::header]: the value of the first header whose name matches
    case-insensitively. *)
Definition header (r : Response) (name : string) : option string :=
  match find (fun h => Text.eq_ignore_ascii_case (fst h) name) r with
  | Some h => Some (snd h)
  | None => None
  end.

(** Outcome of [agent.post(API_URL)...send_json(&body)]:
    [Ok(resp)], [Err(ureq::Error::Status(code, resp))], or any other
    error (transport failure, TLS set-up failure), with its text. *)
Inductive SendResult :=
| SendOk (r : Response)
| SendStatus (code : Z) (r : Response)
| SendTransport (msg : string).

(** [Option::is_some]. *)
Definition isSome {A} (o : option A) : bool :=
  match o with Some _ => true | None => false end.

(** [o.as_deref() == Some(lit)], also the test of a [match] arm
    [Some("lit") => ...]. *)
Definition as_deref_is (o : option string) (lit : string) : bool :=
  match o with Some v => String.eqb v lit | None => false end.

Record Credentials := mkCreds {
  access_token : string;
  refresh_token : option string;
  expires_at : option Z
}.

Section WithStd.
(** [str::parse::<f64>] and [str::parse::<i64>]. *)
Variable parse_f64 : string -> option float.
Variable parse_i64 : string -> option Z.
(** [format!("{:.0}", x)] for an [f64]. *)
Variable fmt_pct : float -> string.

Definition get_header_f64 (r : Response) (name : string) : float :=
  match option_map parse_f64 (header r name) with
  | Some (Some x) => x
  | _ => 0%float
  end.

Definition get_header_i64 (r : Response) (name : string) : option Z :=
  match header r name with
  | Some s => parse_i64 s
  | None => None
  end.

Definition get_header_str (r : Response) (name : string) : option string :=
  header r name.

Definition unix_to_system_time (unix_secs : option Z) : option SystemTime :=
  match unix_secs with
  | None => None
  | Some secs => if secs <? 0 then None else Some (secs * NANOS_PER_SEC)
  end.

Definition parse_headers (r : Response) : UsageData :=
  let data := usage_default in
  (* Session (5-hour window) *)
  let sess := set_percentage (session data)
    (get_header_f64 r "anthropic-ratelimit-unified-5h-utilization" * 100)%float in
  let sess := set_resets_at sess
    (unix_to_system_time (get_header_i64 r "anthropic-ratelimit-unified-5h-reset")) in
  (* Weekly (7-day window) *)
  let week := set_percentage (weekly data)
    (get_header_f64 r "anthropic-ratelimit-unified-7d-utilization" * 100)%float in
  let week := set_resets_at week
    (unix_to_system_time (get_header_i64 r "anthropic-ratelimit-unified-7d-reset")) in
  (* Overall reset/status fallback *)
  let overall_reset := get_header_i64 r "anthropic-ratelimit-unified-reset" in
  if PrimFloat.eqb (percentage sess) 0 && PrimFloat.eqb (percentage week) 0 then
    let status := get_header_str r "anthropic-ratelimit-unified-status" in
    let '(sess, week) :=
      if as_deref_is status "rejected" then
        let claim :=
          get_header_str r "anthropic-ratelimit-unified-representative-claim" in
        if as_deref_is claim "five_hour" then (set_percentage sess 100%float, week)
        else if as_deref_is claim "seven_day" then (sess, set_percentage week 100%float)
        else (sess, week)
      else (sess, week) in
    let sess :=
      match resets_at sess, overall_reset with
      | None, Some _ => set_resets_at sess (unix_to_system_time overall_reset)
      | _, _ => sess
      end in
    mkUsage sess week
  else mkUsage sess week.

Definition has_rate_limit_headers (r : Response) : bool :=
  isSome (header r "anthropic-ratelimit-unified-5h-utilization")
  || isSome (header r "anthropic-ratelimit-unified-7d-utilization")
  || isSome (header r "anthropic-ratelimit-unified-status").

Definition try_model (send : string -> string -> SendResult)
  (token model : string) : option UsageData :=
  let response :=
    match send token model with
    | SendOk resp => Some resp
    | SendStatus _ resp => Some resp
    | SendTransport _ => None
    end in
  match response with
  | None => None
  | Some response =>
      if has_rate_limit_headers response then Some (parse_headers response)
      else None
  end.

Fixpoint fetch_loop (send : string -> string -> SendResult) (token : string)
  (models : list string) : result UsageData PollError :=
  match models with
  | [] => Err AllModelsFailed
  | model :: rest =>
      match try_model send token model with
      | Some data => Ok data
      | None => fetch_loop send token rest
      end
  end.

Definition fetch_usage_with_fallback (send : string -> string -> SendResult)
  (token : string) : result UsageData PollError :=
  fetch_loop send token MODEL_FALLBACK_CHAIN.

(** [now_ms] is [SystemTime::now()] in milliseconds since the epoch. *)
Definition is_token_expired (now_ms : Z) (expires_at : option Z) : bool :=
  match expires_at with
  | None => false
  | Some exp => exp <=? now_ms
  end.

(** [poll]: [creds] is what [read_credentials] returned, [refresh] the
    outcome of [refresh_access_token] for a given refresh token, and
    [send] the outcome of the probe request. *)
Definition poll (creds : option Credentials) (now_ms : Z)
  (refresh : string -> result string string)
  (send : string -> string -> SendResult) : result UsageData PollError :=
  match creds with
  | None => Err NoCredentials
  | Some c =>
      let token :=
        if is_token_expired now_ms (expires_at c) then
          match refresh_token c with
          | None => Err TokenExpired
          | Some rt =>
              match refresh rt with
              | Ok t => Ok t
              | Err _ => Err TokenExpired
              end
          end
        else Ok (access_token c) in
      match token with
      | Err e => Err e
      | Ok t => fetch_usage_with_fallback send t
      end
  end.

(** [SystemTime::duration_since]: [Err] when [earlier] is later. *)
Definition duration_since (t earlier : SystemTime) : option Z :=
  if earlier <=? t then Some (t - earlier) else None.

Definition format_countdown (now : SystemTime) (resets_at : option SystemTime)
  : string :=
  match resets_at with
  | None => ""
  | Some reset =>
      match duration_since reset now with
      | None => "now"
      | Some remaining =>
          let total_secs := remaining / NANOS_PER_SEC in
          let total_mins := total_secs / 60 in
          let total_hours := total_secs / 3600 in
          let total_days := total_secs / 86400 in
          if 1 <=? total_days then Text.dec total_days ++ "d"
          else if 61 <? total_mins then Text.dec total_hours ++ "h"
          else if 60 <? total_secs then Text.dec total_mins ++ "m"
          else Text.dec total_secs
      end
  end.

Definition format_line (now : SystemTime) (section : UsageSection) : string :=
  let pct := fmt_pct (percentage section) ++ "%" in
  let cd := format_countdown now (resets_at section) in
  if String.eqb cd "" then pct
  else pct ++ " " ++ String (ascii_of_nat 194) (String (ascii_of_nat 183) "")
           ++ " " ++ cd.

Definition time_until_display_change (now : SystemTime)
  (resets_at : option SystemTime) : option Z :=
  match resets_at with
  | None => None
  | Some reset =>
      match duration_since reset now with
      | None => None
      | Some remaining =>
          let total_secs := remaining / NANOS_PER_SEC in
          let total_mins := total_secs / 60 in
          let total_hours := total_secs / 3600 in
          let total_days := total_secs / 86400 in
          if total_secs <=? 60 then Some NANOS_PER_SEC
          else
            let next_boundary :=
              if 1 <=? total_days then total_days * 86400 * NANOS_PER_SEC
              else if 61 <? total_mins then
                if 1 <? total_hours then total_hours * 3600 * NANOS_PER_SEC
                else 61 * 60 * NANOS_PER_SEC
              else total_mins * 60 * NANOS_PER_SEC in
            let delay := Z.max 0 (remaining - next_boundary) in
            if 0 <? delay then Some (delay + NANOS_PER_SEC)
            else Some NANOS_PER_SEC
      end
  end.

Definition is_past_reset (now : SystemTime) (data : UsageData) : bool :=
  let past (s : UsageSection) :=
    match resets_at s with
    | Some t => isSome (duration_since now t)
    | None => false
    end in
  past (session data) || past (weekly data).

End WithStd.
End Poller.

(** ** src/window.rs: the scheduler state and its event handlers *)
Module Window.
Import Models Poller.

Definition U32_MAX : Z := 4294967295.

(** [u32::saturating_add], [u32::saturating_mul], [u32::checked_shl]
    on values in [0, U32_MAX]. *)
Definition u32_saturating_add (a b : Z) : Z := Z.min (a + b) U32_MAX.
Definition u32_saturating_mul (a b : Z) : Z := Z.min (a * b) U32_MAX.
Definition u32_checked_shl (x n : Z) : option Z :=
  if n <? 32 then Some (Z.land (Z.shiftl x n) U32_MAX) else None.

Definition RETRY_BASE_MS : Z := 30000.
Definition POLL_1_MIN : Z := 60000.
Definition POLL_5_MIN : Z := 300000.
Definition POLL_15_MIN : Z := 900000.
Definition POLL_1_HOUR : Z := 3600000.

Definition IDM_FREQ_1MIN : Z := 10.
Definition IDM_FREQ_5MIN : Z := 11.
Definition IDM_FREQ_15MIN : Z := 12.
Definition IDM_FREQ_1HOUR : Z := 13.

(** The fields of [AppState] that the scheduler reads or writes (the
    window handles, hook and theme flags are untouched by it). *)
Record AppState := mkApp {
  session_percent : float;
  session_text : string;
  weekly_percent : float;
  weekly_text : string;
  data : option UsageData;
  poll_interval_ms : Z;
  retry_count : Z;
  last_poll_ok : bool
}.

(** The three timer slots of the window ([TIMER_POLL],
    [TIMER_COUNTDOWN], [TIMER_RESET_POLL]): the period in ms of the
    pending timer, if any. [SetTimer] on a slot replaces its period. *)
Record Timers := mkTimers {
  t_poll : option Z;
  t_countdown : option Z;
  t_reset_poll : option Z
}.

(** [STATE: Mutex<Option<AppState>>] together with the window's timers. *)
Record World := mkWorld {
  app : option AppState;
  timers : Timers
}.

Definition set_poll_timer (t : Timers) (ms : Z) : Timers :=
  mkTimers (Some ms) (t_countdown t) (t_reset_poll t).
Definition set_countdown_timer (t : Timers) (ms : Z) : Timers :=
  mkTimers (t_poll t) (Some ms) (t_reset_poll t).
Definition set_reset_poll_timer (t : Timers) (ms : Z) : Timers :=
  mkTimers (t_poll t) (t_countdown t) (Some ms).
Definition kill_reset_poll_timer (t : Timers) : Timers :=
  mkTimers (t_poll t) (t_countdown t) None.

(** Initial state written by [run] before the message loop, with the
    first [SetTimer(TIMER_POLL, ...)]. *)
Definition initial_app : AppState :=
  mkApp 0%float "--" 0%float "--" None POLL_15_MIN 0 false.
Definition initial_world : World :=
  mkWorld (Some initial_app) (mkTimers (Some POLL_15_MIN) None None).

Section WithStd.
Variable fmt_pct : float -> string.

(** [do_poll], after [poller::poll()] returned [outcome] at time [now]. *)
Definition do_poll (now : SystemTime) (outcome : result UsageData PollError)
  (w : World) : World :=
  match outcome with
  | Ok d =>
      let session_text := format_line fmt_pct now (session d) in
      let weekly_text := format_line fmt_pct now (weekly d) in
      match app w with
      | None => w
      | Some s =>
          let t := timers w in
          let t := if negb (is_past_reset now d) then kill_reset_poll_timer t
                   else t in
          let '(retry, t) :=
            if 0 <? retry_count s then (0, set_poll_timer t (poll_interval_ms s))
            else (retry_count s, t) in
          mkWorld
            (Some (mkApp (percentage (session d)) session_text
                         (percentage (weekly d)) weekly_text
                         (Some d) (poll_interval_ms s) retry true))
            t
      end
  | Err _ =>
      match app w with
      | None => w
      | Some s =>
          let retry := u32_saturating_add (retry_count s) 1 in
          let backoff := u32_saturating_mul RETRY_BASE_MS
            (match u32_checked_shl 1 (retry - 1) with
             | Some v => v
             | None => U32_MAX
             end) in
          let retry_ms := Z.min backoff (poll_interval_ms s) in
          mkWorld
            (Some (mkApp (session_percent s) "..." (weekly_percent s) "..."
                         (data s) (poll_interval_ms s) retry false))
            (set_poll_timer (timers w) retry_ms)
      end
  end.

Definition update_display (now : SystemTime) (w : World) : World :=
  match app w with
  | None => w
  | Some s =>
      if negb (last_poll_ok s) then w
      else
        match data s with
        | Some d =>
            mkWorld
              (Some (mkApp (session_percent s) (format_line fmt_pct now (session d))
                           (weekly_percent s) (format_line fmt_pct now (weekly d))
                           (data s) (poll_interval_ms s) (retry_count s)
                           (last_poll_ok s)))
              (timers w)
        | None => w
        end
  end.

(** [schedule_countdown_timer]; [as_millis] is the duration in ms and
    the final [as u32] truncates. *)
Definition schedule_countdown_timer (now : SystemTime) (w : World) : World :=
  match app w with
  | None => w
  | Some s =>
      match data s with
      | None => w
      | Some d =>
          let t := if is_past_reset now d then set_reset_poll_timer (timers w) 5000
                   else timers w in
          let session_delay := time_until_display_change now (resets_at (session d)) in
          let weekly_delay := time_until_display_change now (resets_at (weekly d)) in
          let min_delay :=
            match session_delay, weekly_delay with
            | Some a, Some b => Some (Z.min a b)
            | Some a, None => Some a
            | None, Some b => Some b
            | None, None => None
            end in
          let dur := match min_delay with Some x => x | None => 60 * NANOS_PER_SEC end in
          let ms := Z.max (dur / 1000000) 1000 mod (U32_MAX + 1) in
          mkWorld (app w) (set_countdown_timer t ms)
      end
  end.

(** [WM_TIMER] with [TIMER_COUNTDOWN]: [update_display],
    [render_layered] (drawing only) and [schedule_countdown_timer]. *)
Definition on_countdown_tick (now : SystemTime) (w : World) : World :=
  schedule_countdown_timer now (update_display now w).

End WithStd.

(** [WM_COMMAND] with one of the four update-frequency menu items. *)
Definition interval_of_menu_id (id : Z) : Z :=
  if id =? IDM_FREQ_1MIN then POLL_1_MIN
  else if id =? IDM_FREQ_5MIN then POLL_5_MIN
  else if id =? IDM_FREQ_15MIN then POLL_15_MIN
  else if id =? IDM_FREQ_1HOUR then POLL_1_HOUR
  else POLL_15_MIN.

Definition on_user_changed_interval (id : Z) (w : World) : World :=
  let new_interval := interval_of_menu_id id in
  let a :=
    match app w with
    | Some s =>
        Some (mkApp (session_percent s) (session_text s) (weekly_percent s)
                    (weekly_text s) (data s) new_interval (retry_count s)
                    (last_poll_ok s))
    | None => None
    end in
  (* Reset the poll timer with the new interval *)
  mkWorld a (set_poll_timer (timers w) new_interval).

(** The two display lines, as [render_layered] reads them. *)
Definition texts_of (w : World) : option (string * string) :=
  option_map (fun s => (session_text s, weekly_text s)) (app w).

End Window.

(** ** src/poller.rs: credentials file and token refresh *)
Module Creds.
Import Poller.

(** [serde_json::Number]: a non-negative integer ([u64]), a negative
    integer ([i64]) or a float. *)
Inductive JNumber :=
| PosInt (n : Z)
| NegInt (n : Z)
| JFloat (f : float).

#[local] Set Warnings "-register-all".

(** [serde_json::Value]; an object is its (key, value) entries. *)
Inductive Value :=
| Null
| JBool (b : bool)
| Number (n : JNumber)
| JString (s : string)
| Array (l : list Value)
| Object (m : list (string * Value)).

(** [Value::get(key)]: the entry of an object, [None] on any other value. *)
Definition get (v : Value) (key : string) : option Value :=
  match v with
  | Object m =>
      match find (fun kv => String.eqb (fst kv) key) m with
      | Some kv => Some (snd kv)
      | None => None
      end
  | _ => None
  end.

Definition as_str (v : Value) : option string :=
  match v with JString s => Some s | _ => None end.

Definition I64_MAX : Z := 2 ^ 63 - 1.

(** [Value::as_i64]: integers within the [i64] range only. *)
Definition as_i64 (v : Value) : option Z :=
  match v with
  | Number (PosInt n) => if n <=? I64_MAX then Some n else None
  | Number (NegInt n) => Some n
  | _ => None
  end.

(** [Option::and_then]. *)
Definition and_then {A B} (o : option A) (f : A -> option B) : option B :=
  match o with Some a => f a | None => None end.

(** [read_credentials]; [json] is the parsed content of
    [~/.claude/.credentials.json], [None] when the home directory, the read
    or the JSON parse fails. *)
Definition read_credentials (json : option Value) : option Credentials :=
  and_then json (fun json =>
  and_then (get json "claudeAiOauth") (fun oauth =>
  and_then (and_then (get oauth "accessToken") as_str) (fun access =>
  Some (mkCreds access
          (and_then (get oauth "refreshToken") as_str)
          (and_then (get oauth "expiresAt") as_i64))))).

(** Outcome of the refresh POST: a send error (transport or HTTP error
    status, with its text), or a response whose body parsed as JSON or
    failed to parse (with the parse error's text). *)
Inductive RefreshHttp :=
| RefreshSendErr (msg : string)
| RefreshBody (body : result Value string).

Definition refresh_access_token (http : RefreshHttp) : result string string :=
  match http with
  | RefreshSendErr msg => Err msg
  | RefreshBody (Err msg) => Err msg
  | RefreshBody (Ok resp_body) =>
      match and_then (get resp_body "access_token") as_str with
      | Some t => Ok t
      | None => Err "missing access_token in refresh response"
      end
  end.

End Creds.

(** ** src/window.rs: widget geometry *)
Module Layout.

Definition SEGMENT_W : Z := 10.
Definition SEGMENT_H : Z := 13.
Definition SEGMENT_GAP : Z := 1.
Definition SEGMENT_COUNT : Z := 10.
Definition LEFT_DIVIDER_W : Z := 3.
Definition DIVIDER_RIGHT_MARGIN : Z := 10.
Definition LABEL_WIDTH : Z := 18.
Definition LABEL_RIGHT_MARGIN : Z := 10.
Definition BAR_RIGHT_MARGIN : Z := 4.
Definition TEXT_WIDTH : Z := 52.
Definition RIGHT_MARGIN : Z := 1.
Definition WIDGET_HEIGHT : Z := 46.

(** [i32] arithmetic wraps (release build). *)
Definition i32_wrap (z : Z) : Z := (z + 2 ^ 31) mod 2 ^ 32 - 2 ^ 31.

Definition total_widget_width : Z :=
  LEFT_DIVIDER_W + DIVIDER_RIGHT_MARGIN + LABEL_WIDTH + LABEL_RIGHT_MARGIN
  + (SEGMENT_W + SEGMENT_GAP) * SEGMENT_COUNT - SEGMENT_GAP
  + BAR_RIGHT_MARGIN + TEXT_WIDTH + RIGHT_MARGIN.

Record Rect := mkRect { left : Z; top : Z; right : Z; bottom : Z }.

(** [position_at_taskbar]: the [(x, y, w, h)] passed to [move_window], or
    [None] on the early returns. [taskbar_rect] is [None] when there is no
    state, no taskbar handle or [get_taskbar_rect] fails; [tray_rect] is
    the rectangle of the "TrayNotifyWnd" child when it is found. *)
Definition position_at_taskbar (embedded : bool) (taskbar_rect : option Rect)
  (tray_rect : option Rect) : option (Z * Z * Z * Z) :=
  match taskbar_rect with
  | None => None
  | Some tb =>
      let taskbar_height := i32_wrap (bottom tb - top tb) in
      let tray_left := match tray_rect with Some tr => left tr | None => right tb end in
      let widget_width := total_widget_width in
      if embedded then
        let x := i32_wrap (i32_wrap (tray_left - left tb) - widget_width) in
        let y := Z.quot (i32_wrap (taskbar_height - WIDGET_HEIGHT)) 2 in
        Some (x, y, widget_width, WIDGET_HEIGHT)
      else
        let x := i32_wrap (tray_left - widget_width) in
        let y := i32_wrap (top tb + Z.quot (i32_wrap (taskbar_height - WIDGET_HEIGHT)) 2) in
        Some (x, y, widget_width, WIDGET_HEIGHT)
  end.

End Layout.

(** ** src/native_interop.rs: colours *)
Module Interop.

(** [colorref(r, g, b)] = [r | g << 8 | b << 16] on [u32]. *)
Definition colorref (r g b : Z) : Z :=
  Z.lor (Z.lor r (Z.shiftl g 8)) (Z.shiftl b 16).

Record Color := mkColor { cr : Z; cg : Z; cb : Z }.

Definition to_colorref (c : Color) : Z := colorref (cr c) (cg c) (cb c).

(** Value of an ASCII hexadecimal digit. *)
Definition hex_val (c : ascii) : option Z :=
  let n := Z.of_nat (nat_of_ascii c) in
  if (48 <=? n) && (n <=? 57) then Some (n - 48)
  else if (65 <=? n) && (n <=? 70) then Some (n - 55)
  else if (97 <=? n) && (n <=? 102) then Some (n - 87)
  else None.

Fixpoint radix16_digits (s : string) (acc : Z) : option Z :=
  match s with
  | EmptyString => Some acc
  | String c s' =>
      match hex_val c with
      | Some d => let v := acc * 16 + d in
                  if 255 <? v then None else radix16_digits s' v
      | None => None
      end
  end.

(** [u8::from_str_radix(s, 16)]: a lone sign is an error, a leading [+]
    is skipped, [-] is an invalid digit for an unsigned type. *)
Definition u8_from_str_radix16 (s : string) : option Z :=
  match s with
  | EmptyString => None
  | String c rest =>
      if (Ascii.eqb c "+"%char || Ascii.eqb c "-"%char) && String.eqb rest "" then None
      else if Ascii.eqb c "+"%char then radix16_digits rest 0
      else radix16_digits s 0
  end.

(** [str::trim_start_matches('#')]. *)
Fixpoint trim_hash (s : string) : string :=
  match s with
  | String c s' => if Ascii.eqb c "#"%char then trim_hash s' else s
  | EmptyString => s
  end.

(** [str::is_char_boundary] on the UTF-8 bytes of the string. *)
Definition is_char_boundary (s : string) (i : nat) : bool :=
  if (i =? 0)%nat then true
  else match get i s with
       | None => (i =? String.length s)%nat
       | Some b => let n := nat_of_ascii b in negb ((128 <=? n)%nat && (n <? 192)%nat)
       end.

(** [&s[a..b]]; [None] where the indexing panics. *)
Definition slice (s : string) (a b : nat) : option string :=
  if (a <=? b)%nat && (b <=? String.length s)%nat
     && is_char_boundary s a && is_char_boundary s b
  then Some (substring a (b - a) s) else None.

Definition unwrap_or0 (o : option Z) : Z := match o with Some v => v | None => 0 end.

(** [Color::from_hex]; [None] where it panics. *)
Definition from_hex (hex : string) : option Color :=
  let hex := trim_hash hex in
  match slice hex 0 2, slice hex 2 4, slice hex 4 6 with
  | Some r, Some g, Some b =>
      Some (mkColor (unwrap_or0 (u8_from_str_radix16 r))
                    (unwrap_or0 (u8_from_str_radix16 g))
                    (unwrap_or0 (u8_from_str_radix16 b)))
  | _, _, _ => None
  end.

End Interop.

(** ** src/window.rs: [on_tray_location_changed] throttle *)
Module Tray.

(** One WinEvent at monotonic time [now] (ns): [is_tray] says whether the
    event's window is the tray's; [last] is [LAST_REPOSITION]. Returns
    whether [position_at_taskbar] runs, and the new [LAST_REPOSITION].
    [Instant::duration_since] saturates at zero. *)
Definition tray_event (is_tray : bool) (now : Z) (last : option Z) : bool * option Z :=
  if negb is_tray then (false, last)
  else
    let should :=
      match last with
      | Some t => 500 <? Z.max 0 (now - t) / 1000000
      | None => true
      end in
    if should then (true, Some now) else (false, last).

(** The times at which a sequence of events repositions the widget. *)
Fixpoint tray_run (last : option Z) (events : list (bool * Z)) : list Z :=
  match events with
  | [] => []
  | (is_tray, now) :: rest =>
      let '(should, last') := tray_event is_tray now last in
      if should then now :: tray_run last' rest else tray_run last' rest
  end.

End Tray.

(** ** Concrete instances of the standard-library parameters

    The embedding above is parametric in the text parsers and the float
    formatter; these instances are used to run it on concrete inputs. *)
Module Samples.
Import Models Poller Window.

Fixpoint digits_val (s : string) (acc : Z) : option Z :=
  match s with
  | EmptyString => Some acc
  | String c s' =>
      let n := nat_of_ascii c in
      if (48 <=? n)%nat && (n <=? 57)%nat then
        digits_val s' (acc * 10 + Z.of_nat (n - 48))
      else None
  end.

(** [str::parse::<i64>]: an optional sign, then at least one ASCII digit,
    within the [i64] range. *)
Definition parse_i64 (s : string) : option Z :=
  let in_range v := if (- 2 ^ 63 <=? v) && (v <? 2 ^ 63) then Some v else None in
  match s with
  | EmptyString => None
  | String c rest =>
      if Ascii.eqb c "-"%char then
        match rest with
        | EmptyString => None
        | _ => match digits_val rest 0 with Some v => in_range (- v) | None => None end
        end
      else if Ascii.eqb c "+"%char then
        match rest with
        | EmptyString => None
        | _ => match digits_val rest 0 with Some v => in_range v | None => None end
        end
      else match digits_val s 0 with Some v => in_range v | None => None end
  end.

(** A [str::parse::<f64>] instance for the decimal texts used below. *)
Definition parse_f64 (s : string) : option float :=
  if String.eqb s "0" then Some 0%float
  else if String.eqb s "0.0" then Some 0%float
  else if String.eqb s "0.42" then Some 0x1.ae147ae147ae1p-2%float
  else if String.eqb s "0.1" then Some 0x1.999999999999ap-4%float
  else if String.eqb s "1" then Some 1%float
  else None.

(** A [{:.0}] instance for the percentages used below. *)
Definition fmt_pct (x : float) : string :=
  if PrimFloat.eqb x 0 then "0"
  else if PrimFloat.eqb x 100 then "100"
  else if PrimFloat.eqb x 42 then "42"
  else "?".

(** The same probe outcome for every token and target. *)
Definition send_always (o : SendResult) : string -> string -> SendResult :=
  fun _ _ => o.

(** Scenario B of the spec: both utilizations 0, status "rejected",
    representative claim "five_hour". *)
Definition scenario_b : Response :=
  [ ("anthropic-ratelimit-unified-5h-utilization", "0");
    ("anthropic-ratelimit-unified-7d-utilization", "0");
    ("anthropic-ratelimit-unified-status", "rejected");
    ("anthropic-ratelimit-unified-representative-claim", "five_hour") ].

End Samples.

(** ** Vocabulary of the statements about the probe loop *)
Module Probe.
Import Poller.

(** The response a probe produced, if any: [Ok] and HTTP-error-status
    outcomes both carry one; a transport failure does not. *)
Definition response_of (o : SendResult) : option Response :=
  match o with
  | SendOk r => Some r
  | SendStatus _ r => Some r
  | SendTransport _ => None
  end.

(** The header names [try_model] tests for. *)
Definition accepted_header_names : list string :=
  [ "anthropic-ratelimit-unified-5h-utilization";
    "anthropic-ratelimit-unified-7d-utilization";
    "anthropic-ratelimit-unified-status" ].

Definition exposes (r : Response) (names : list string) : Prop :=
  exists n, In n names /\ header r n <> None.

Definition carrier (o : SendResult) : Prop :=
  exists r, response_of o = Some r /\ exposes r accepted_header_names.

End Probe.

(** Vocabulary for colour literals: a byte as two upper-case hexadecimal
    digits, as the colours of [window.rs] are written ("#D97757"). *)
Module HexText.

Definition hex_digit (d : Z) : ascii :=
  ascii_of_nat (Z.to_nat (if d <? 10 then 48 + d else 55 + d)).

Definition hex2 (v : Z) : string :=
  String (hex_digit (v / 16)) (String (hex_digit (v mod 16)) "").

End HexText.

(** Vocabulary for the tray throttle: each time in the list is at least
    [gap] after the one before it (and after [prev], when given). *)
Module Spacing.

Fixpoint spaced (gap : Z) (prev : option Z) (l : list Z) : Prop :=
  match l with
  | [] => True
  | t :: rest =>
      match prev with Some p => gap <= t - p | None => True end /\ spaced gap (Some t) rest
  end.

End Spacing.

(** * Properties *)

Import Models Poller Window.

(** Runs of the embedding on the spec's scenarios. *)
Example parse_i64_sample : Samples.parse_i64 "1700000000" = Some 1700000000.
Proof. reflexivity. Qed.
Example scenario_a_countdown : Poller.format_countdown 0 (Some (10800 * Poller.NANOS_PER_SEC)) = "3h".
Proof. vm_compute. reflexivity. Qed.
Example countdown_final_minute : Poller.format_countdown 0 (Some (45 * Poller.NANOS_PER_SEC)) = "45".
Proof. vm_compute. reflexivity. Qed.
Example countdown_passed : Poller.format_countdown 5 (Some 0) = "now".
Proof. vm_compute. reflexivity. Qed.
Example scenario_a_percentage : Models.percentage (Models.session (Poller.parse_headers Samples.parse_f64 Samples.parse_i64
   [("anthropic-ratelimit-unified-5h-utilization", "0.42")])) = 42%float.
Proof. vm_compute. reflexivity. Qed.
Example scenario_a_line : Poller.format_line Samples.fmt_pct 0 (Models.mkSection 42%float (Some (10800 * Poller.NANOS_PER_SEC))) = "42% · 3h".
Proof. vm_compute. reflexivity. Qed.
Example rejected_case_insensitive_status : Models.percentage (Models.session (Poller.parse_headers Samples.parse_f64 Samples.parse_i64
   [("Anthropic-Ratelimit-Unified-Status", "rejected"); ("anthropic-ratelimit-unified-representative-claim", "five_hour")])) = 100%float.
Proof. vm_compute. reflexivity. Qed.

Example backoff_sequence_15min :
  let fail w := do_poll Samples.fmt_pct 0 (Err NoCredentials) w in
  let w1 := fail initial_world in let w2 := fail w1 in let w3 := fail w2 in
  let w4 := fail w3 in let w5 := fail w4 in let w6 := fail w5 in let w7 := fail w6 in
  map (fun w => t_poll (timers w)) [w1; w2; w3; w4; w5; w6; w7] =
  map Some [30000; 60000; 120000; 240000; 480000; 900000; 900000].
Proof. vm_compute. reflexivity. Qed.

Lemma duration_since_some t e :
  e <= t -> duration_since t e = Some (t - e).
Proof. intro H. unfold duration_since. now rewrite (proj2 (Z.leb_le e t) H). Qed.

Lemma duration_since_none t e :
  t < e -> duration_since t e = None.
Proof.
  intro H. unfold duration_since.
  destruct (Z.leb_spec e t); [lia | reflexivity].
Qed.

(** C4 (as the code does it): [format_countdown] gives "now" exactly when
    the reset time is strictly before now; otherwise its tiers are decided
    on the remaining time truncated to whole seconds [s]: days when
    [s >= 86400], hours when [3720 <= s < 86400] (the whole-minute count
    exceeds 61), minutes when [61 <= s < 3720], and the seconds themselves
    when [s <= 60]. *)
Theorem format_countdown_tiers (now reset : SystemTime) :
  (reset < now -> format_countdown now (Some reset) = "now") /\
  (now <= reset ->
   let s := (reset - now) / NANOS_PER_SEC in
   (86400 <= s -> format_countdown now (Some reset) = Text.dec (s / 86400) ++ "d") /\
   (3720 <= s < 86400 -> format_countdown now (Some reset) = Text.dec (s / 3600) ++ "h") /\
   (61 <= s < 3720 -> format_countdown now (Some reset) = Text.dec (s / 60) ++ "m") /\
   (s <= 60 -> format_countdown now (Some reset) = Text.dec s)).
Proof.
  split.
  - intro H. unfold format_countdown. now rewrite duration_since_none.
  - intros H s. unfold format_countdown. rewrite duration_since_some by lia.
    fold s.
    assert (Hs : 0 <= s) by (unfold s, NANOS_PER_SEC; apply Z.div_pos; lia).
    repeat split; intros Hr.
    + assert (1 <= s / 86400) by (apply Z.div_le_lower_bound; lia).
      rewrite (proj2 (Z.leb_le 1 (s / 86400))) by lia. reflexivity.
    + assert (s / 86400 < 1) by (apply Z.div_lt_upper_bound; lia).
      assert (62 <= s / 60) by (apply Z.div_le_lower_bound; lia).
      rewrite (proj2 (Z.leb_gt 1 (s / 86400))) by lia.
      rewrite (proj2 (Z.ltb_lt 61 (s / 60))) by lia. reflexivity.
    + assert (s / 86400 < 1) by (apply Z.div_lt_upper_bound; lia).
      assert (s / 60 < 62) by (apply Z.div_lt_upper_bound; lia).
      rewrite (proj2 (Z.leb_gt 1 (s / 86400))) by lia.
      rewrite (proj2 (Z.ltb_ge 61 (s / 60))) by lia.
      rewrite (proj2 (Z.ltb_lt 60 s)) by lia. reflexivity.
    + assert (s / 86400 < 1) by (apply Z.div_lt_upper_bound; lia).
      assert (s / 60 < 62) by (apply Z.div_lt_upper_bound; lia).
      rewrite (proj2 (Z.leb_gt 1 (s / 86400))) by lia.
      rewrite (proj2 (Z.ltb_ge 61 (s / 60))) by lia.
      rewrite (proj2 (Z.ltb_ge 60 s)) by lia. reflexivity.
Qed.

Lemma format_countdown_tiers_witness :
  format_countdown (5 * NANOS_PER_SEC) (Some (2 * NANOS_PER_SEC)) = "now" /\
  format_countdown 0 (Some (3670 * NANOS_PER_SEC)) = Text.dec 61 ++ "m".
Proof.
  split.
  - apply (proj1 (format_countdown_tiers (5 * NANOS_PER_SEC) (2 * NANOS_PER_SEC))).
    unfold NANOS_PER_SEC; lia.
  - destruct (proj2 (format_countdown_tiers 0 (3670 * NANOS_PER_SEC)))
      as (_ & _ & Hm & _); [unfold NANOS_PER_SEC; lia|].
    cbv zeta in Hm. etransitivity; [apply Hm|vm_compute; reflexivity].
    rewrite Z.sub_0_r, Z.div_mul by (unfold NANOS_PER_SEC; lia); lia.
Defined.

(** C4 counterexample: 61 minutes 10 seconds before the reset (more than
    61 minutes) the countdown shows minutes, "61m", not hours. *)
Lemma format_countdown_61m10s_shows_minutes :
  61 * 60 * NANOS_PER_SEC < 3670 * NANOS_PER_SEC /\
  format_countdown 0 (Some (3670 * NANOS_PER_SEC)) = "61m".
Proof. split; [unfold NANOS_PER_SEC; lia | vm_compute; reflexivity]. Qed.

(** C5 (as the code does it): [time_until_display_change] returns [None]
    exactly when the reset time is absent or already passed (strictly
    before now); otherwise it returns a duration of at least one second,
    and exactly one second in the final 60-second tier. *)
Theorem time_until_display_change_cases (now : SystemTime) (r : option SystemTime) :
  (time_until_display_change now r = None <->
   r = None \/ exists t, r = Some t /\ t < now) /\
  (forall d, time_until_display_change now r = Some d -> NANOS_PER_SEC <= d) /\
  (forall t, r = Some t -> now <= t -> (t - now) / NANOS_PER_SEC <= 60 ->
   time_until_display_change now r = Some NANOS_PER_SEC).
Proof.
  split; [|split].
  - destruct r as [t|]; [|split; [now left | reflexivity]].
    unfold time_until_display_change.
    destruct (Z_lt_le_dec t now) as [Hlt|Hle].
    + rewrite duration_since_none by exact Hlt.
      split; [intros _; right; now exists t | reflexivity].
    + rewrite duration_since_some by exact Hle.
      split.
      * intro H. exfalso.
        repeat match type of H with
               | context [if ?c then _ else _] => destruct c
               end; discriminate H.
      * intros [H|(t' & H & Ht')]; [discriminate H|]. injection H as <-. lia.
  - intros d. destruct r as [t|]; [|discriminate].
    unfold time_until_display_change.
    destruct (duration_since t now) as [rem|]; [|discriminate].
    repeat match goal with
           | |- context [if ?c then _ else _] => destruct c eqn:?
           end; intro H; injection H as <-; unfold NANOS_PER_SEC in *; try lia.
    all: match goal with H : (0 <? _) = true |- _ => apply Z.ltb_lt in H end; lia.
  - intros t -> Hle Hs. unfold time_until_display_change.
    rewrite duration_since_some by exact Hle.
    now rewrite (proj2 (Z.leb_le _ 60) Hs).
Qed.

Lemma time_until_display_change_cases_witness :
  time_until_display_change 0 (Some (30 * NANOS_PER_SEC)) = Some NANOS_PER_SEC.
Proof.
  apply (proj2 (proj2 (time_until_display_change_cases 0 (Some (30 * NANOS_PER_SEC)))))
    with (t := 30 * NANOS_PER_SEC); [reflexivity | unfold NANOS_PER_SEC; lia |].
  rewrite Z.sub_0_r, Z.div_mul by (unfold NANOS_PER_SEC; lia). lia.
Defined.

(** C5 counterexample: a reset time that is present but five seconds in
    the past gives [None]. *)
Lemma time_until_display_change_passed_reset_none :
  time_until_display_change (10 * NANOS_PER_SEC) (Some (5 * NANOS_PER_SEC)) = None.
Proof. vm_compute. reflexivity. Qed.

Section FetchLoop.
Import Probe.
Variable parse_f64 : string -> option float.
Variable parse_i64 : string -> option Z.
Variable send : string -> string -> SendResult.
Variable token : string.

Lemma has_rate_limit_headers_exposes r :
  has_rate_limit_headers r = true <-> exposes r accepted_header_names.
Proof.
  unfold has_rate_limit_headers, exposes, accepted_header_names, isSome.
  split.
  - intro H.
    destruct (header r "anthropic-ratelimit-unified-5h-utilization") eqn:H1;
      [eexists; split; [left; reflexivity | now rewrite H1]|].
    destruct (header r "anthropic-ratelimit-unified-7d-utilization") eqn:H2;
      [eexists; split; [right; left; reflexivity | now rewrite H2]|].
    destruct (header r "anthropic-ratelimit-unified-status") eqn:H3;
      [eexists; split; [right; right; left; reflexivity | now rewrite H3]|].
    discriminate H.
  - intros (n & Hin & Hn).
    destruct Hin as [<-|[<-|[<-|[]]]];
      destruct (header r _); try congruence; now rewrite ?orb_true_r.
Qed.

Lemma try_model_some m d :
  try_model parse_f64 parse_i64 send token m = Some d <->
  exists r, response_of (send token m) = Some r /\
            exposes r accepted_header_names /\ d = parse_headers parse_f64 parse_i64 r.
Proof.
  unfold try_model.
  destruct (send token m) as [r|c r|msg]; simpl;
    try (split; [discriminate | intros (r' & H & _); discriminate H]);
  (split;
   [ destruct (has_rate_limit_headers r) eqn:Hh; [|discriminate];
     intro H; injection H as <-; exists r;
     repeat split; [apply has_rate_limit_headers_exposes; exact Hh]
   | intros (r' & H & Hex & ->); injection H as <-;
     apply has_rate_limit_headers_exposes in Hex; now rewrite Hex ]).
Qed.

Lemma try_model_none m :
  try_model parse_f64 parse_i64 send token m = None <-> ~ carrier (send token m).
Proof.
  unfold carrier. split.
  - intros H (r & Hr & Hex).
    assert (Hs : try_model parse_f64 parse_i64 send token m =
                 Some (parse_headers parse_f64 parse_i64 r))
      by (apply try_model_some; now exists r).
    congruence.
  - intro H. destruct (try_model parse_f64 parse_i64 send token m) as [d|] eqn:E;
      [|reflexivity].
    exfalso. apply H. apply try_model_some in E as (r & Hr & Hex & _).
    now exists r.
Qed.

Lemma fetch_loop_ok models d :
  fetch_loop parse_f64 parse_i64 send token models = Ok d <->
  exists pre m post r, models = (pre ++ m :: post)%list /\
    (forall m', In m' pre -> ~ carrier (send token m')) /\
    response_of (send token m) = Some r /\ exposes r accepted_header_names /\
    d = parse_headers parse_f64 parse_i64 r.
Proof.
  induction models as [|m0 rest IH]; simpl.
  - split; [discriminate|].
    intros (pre & m & post & r & H & _). destruct pre; discriminate H.
  - destruct (try_model parse_f64 parse_i64 send token m0) as [d0|] eqn:E.
    + split.
      * intro H. injection H as <-.
        apply try_model_some in E as (r & Hr & Hex & ->).
        exists [], m0, rest, r. repeat split; auto; intros m' [].
      * intros (pre & m & post & r & Hm & Hpre & Hr & Hex & ->).
        destruct pre as [|p pre]; simpl in Hm; injection Hm as <- ->.
        -- apply try_model_some in E as (r' & Hr' & _ & ->). congruence.
        -- exfalso. apply (Hpre m0 (or_introl eq_refl)).
           apply try_model_some in E as (r' & Hr' & Hex' & _). now exists r'.
    + rewrite IH. split.
      * intros (pre & m & post & r & -> & Hpre & Hr & Hex & ->).
        exists (m0 :: pre), m, post, r. repeat split; auto.
        intros m' [<-|Hin]; [now apply try_model_none | now apply Hpre].
      * intros (pre & m & post & r & Hm & Hpre & Hr & Hex & ->).
        destruct pre as [|p pre]; simpl in Hm; injection Hm as <- Hm.
        -- exfalso. apply try_model_none in E. apply E. now exists r.
        -- exists pre, m, post, r. repeat split; auto.
           intros m' Hin. apply Hpre. now right.
Qed.

Lemma fetch_loop_err models e :
  fetch_loop parse_f64 parse_i64 send token models = Err e <->
  e = AllModelsFailed /\ (forall m, In m models -> ~ carrier (send token m)).
Proof.
  induction models as [|m0 rest IH]; simpl.
  - split; [intro H; injection H as <-; split; [reflexivity | intros m []]|].
    now intros [-> _].
  - destruct (try_model parse_f64 parse_i64 send token m0) as [d0|] eqn:E.
    + split; [discriminate|].
      intros [_ H]. exfalso. apply (H m0 (or_introl eq_refl)).
      apply try_model_some in E as (r & Hr & Hex & _). now exists r.
    + rewrite IH. apply try_model_none in E. split.
      * intros [-> H]. split; [reflexivity|]. intros m [<-|Hin]; auto.
      * intros [-> H]. split; [reflexivity|]. intros m Hin. apply H. now right.
Qed.

End FetchLoop.

(** C1 (as the code does it): [fetch_usage_with_fallback] returns [Ok d]
    exactly when some target of the fallback chain produced a response
    (a success or an HTTP error status, not a transport failure) that
    exposes one of the 5-hour utilization, 7-day utilization or status
    headers, every earlier target having produced no such response; [d] is
    the parse of that first response. *)
Theorem fetch_usage_with_fallback_first_carrier parse_f64 parse_i64 send token d :
  fetch_usage_with_fallback parse_f64 parse_i64 send token = Ok d <->
  exists pre m post r, MODEL_FALLBACK_CHAIN = (pre ++ m :: post)%list /\
    (forall m', In m' pre -> ~ Probe.carrier (send token m')) /\
    Probe.response_of (send token m) = Some r /\
    Probe.exposes r Probe.accepted_header_names /\
    d = parse_headers parse_f64 parse_i64 r.
Proof. apply fetch_loop_ok. Qed.

(** C1 counterexample: every target answers with a response exposing the
    5-hour reset header (a recognized header) and nothing else; no target
    is accepted and the fetch fails. *)
Lemma fetch_rejects_reset_only_response :
  let r := [("anthropic-ratelimit-unified-5h-reset", "1700000000")] in
  header r "anthropic-ratelimit-unified-5h-reset" <> None /\
  fetch_usage_with_fallback Samples.parse_f64 Samples.parse_i64
    (Samples.send_always (SendOk r)) "token" = Err AllModelsFailed.
Proof. split; [discriminate | vm_compute; reflexivity]. Qed.

(** C9 (as the code does it): the fetch fails only with [AllModelsFailed],
    exactly when no target of the chain produced a header-bearing response;
    the error value has no payload. *)
Theorem fetch_usage_with_fallback_all_failed parse_f64 parse_i64 send token e :
  fetch_usage_with_fallback parse_f64 parse_i64 send token = Err e <->
  e = AllModelsFailed /\
  (forall m, In m MODEL_FALLBACK_CHAIN -> ~ Probe.carrier (send token m)).
Proof. apply fetch_loop_err. Qed.

(** C9 counterexample: no function of the returned error recovers the
    targets' error texts: two runs whose targets fail with different
    transport errors return the same error value. *)
Lemma all_models_failed_has_no_diagnostics :
  ~ exists diag : PollError -> list string,
      forall msg : string,
        match fetch_usage_with_fallback Samples.parse_f64 Samples.parse_i64
                (Samples.send_always (SendTransport msg)) "token" with
        | Err e => diag e = map (fun _ => msg) MODEL_FALLBACK_CHAIN
        | Ok _ => False
        end.
Proof.
  intros (diag & H).
  pose proof (H "timed out") as H1. pose proof (H "connection refused") as H2.
  vm_compute in H1, H2. rewrite H1 in H2. discriminate H2.
Qed.

Lemma as_deref_is_five_seven o :
  as_deref_is o "five_hour" = true -> as_deref_is o "seven_day" = false.
Proof.
  destruct o as [v|]; [|discriminate]. unfold as_deref_is.
  intro H. apply String.eqb_eq in H as ->. reflexivity.
Qed.

(** C3: in [parse_headers], the representative claim forces a percentage
    to 100 exactly when both parsed percentages are 0 ([==] on [f64]) and
    the status header is "rejected": "five_hour" forces the session
    percentage, "seven_day" the weekly one, the other staying at its parsed
    value, which is 0. In the both-zero branch an unset session reset time
    is filled from the overall reset header when that header parses. *)
Theorem parse_headers_rejected_fallback parse_f64 parse_i64 r :
  let s0 := (get_header_f64 parse_f64 r "anthropic-ratelimit-unified-5h-utilization" * 100)%float in
  let w0 := (get_header_f64 parse_f64 r "anthropic-ratelimit-unified-7d-utilization" * 100)%float in
  let both0 := PrimFloat.eqb s0 0 && PrimFloat.eqb w0 0 in
  let rejected := as_deref_is (get_header_str r "anthropic-ratelimit-unified-status") "rejected" in
  let claim := get_header_str r "anthropic-ratelimit-unified-representative-claim" in
  let overall := get_header_i64 parse_i64 r "anthropic-ratelimit-unified-reset" in
  let d := parse_headers parse_f64 parse_i64 r in
  percentage (session d) =
    (if both0 && rejected && as_deref_is claim "five_hour" then 100%float else s0) /\
  percentage (weekly d) =
    (if both0 && rejected && as_deref_is claim "seven_day" then 100%float else w0) /\
  (both0 && rejected && as_deref_is claim "five_hour" = true ->
   PrimFloat.eqb (percentage (weekly d)) 0 = true) /\
  (both0 && rejected && as_deref_is claim "seven_day" = true ->
   PrimFloat.eqb (percentage (session d)) 0 = true) /\
  (both0 = true ->
   unix_to_system_time (get_header_i64 parse_i64 r "anthropic-ratelimit-unified-5h-reset") = None ->
   overall <> None ->
   resets_at (session d) = unix_to_system_time overall).
Proof.
  cbv zeta. unfold parse_headers. simpl.
  set (s0 := (get_header_f64 parse_f64 r "anthropic-ratelimit-unified-5h-utilization" * 100)%float).
  set (w0 := (get_header_f64 parse_f64 r "anthropic-ratelimit-unified-7d-utilization" * 100)%float).
  set (claim := get_header_str r "anthropic-ratelimit-unified-representative-claim").
  set (st := as_deref_is (get_header_str r "anthropic-ratelimit-unified-status") "rejected").
  set (u5 := unix_to_system_time
               (get_header_i64 parse_i64 r "anthropic-ratelimit-unified-5h-reset")).
  set (ov := get_header_i64 parse_i64 r "anthropic-ratelimit-unified-reset").
  pose proof (as_deref_is_five_seven claim) as H57.
  destruct (PrimFloat.eqb s0 0) eqn:Hs, (PrimFloat.eqb w0 0) eqn:Hw, st,
    (as_deref_is claim "five_hour"), (as_deref_is claim "seven_day"), u5, ov;
    simpl; repeat split; intros; try discriminate (H57 eq_refl);
    first [reflexivity | assumption | discriminate | congruence].
Qed.

Lemma parse_headers_rejected_fallback_witness :
  percentage (session (parse_headers Samples.parse_f64 Samples.parse_i64 Samples.scenario_b)) = 100%float /\
  percentage (weekly (parse_headers Samples.parse_f64 Samples.parse_i64 Samples.scenario_b)) = 0%float.
Proof.
  pose proof (parse_headers_rejected_fallback Samples.parse_f64 Samples.parse_i64 Samples.scenario_b)
    as (H1 & H2 & _).
  cbv zeta in H1, H2. rewrite H1, H2. split; vm_compute; reflexivity.
Defined.

Lemma header_cons (a v n : string) (r : Response) :
  header ((a, v) :: r) n = if Text.eq_ignore_ascii_case a n then Some v else header r n.
Proof. unfold header. simpl. now destruct (Text.eq_ignore_ascii_case a n). Qed.

Lemma parse_headers_congr parse_f64 parse_i64 (r r' : Response) :
  get_header_f64 parse_f64 r "anthropic-ratelimit-unified-5h-utilization" =
    get_header_f64 parse_f64 r' "anthropic-ratelimit-unified-5h-utilization" ->
  get_header_f64 parse_f64 r "anthropic-ratelimit-unified-7d-utilization" =
    get_header_f64 parse_f64 r' "anthropic-ratelimit-unified-7d-utilization" ->
  header r "anthropic-ratelimit-unified-5h-reset" = header r' "anthropic-ratelimit-unified-5h-reset" ->
  header r "anthropic-ratelimit-unified-7d-reset" = header r' "anthropic-ratelimit-unified-7d-reset" ->
  header r "anthropic-ratelimit-unified-reset" = header r' "anthropic-ratelimit-unified-reset" ->
  header r "anthropic-ratelimit-unified-status" = header r' "anthropic-ratelimit-unified-status" ->
  header r "anthropic-ratelimit-unified-representative-claim" =
    header r' "anthropic-ratelimit-unified-representative-claim" ->
  parse_headers parse_f64 parse_i64 r = parse_headers parse_f64 parse_i64 r'.
Proof.
  intros H1 H2 H3 H4 H5 H6 H7.
  unfold parse_headers, get_header_i64, get_header_str.
  rewrite H1, H2, H3, H4, H5, H6, H7. reflexivity.
Qed.

(** C10: a utilization header (5-hour or 7-day) that is absent or does not
    parse as a float reads as exactly 0.0, so its percentage is 0.0; the
    whole parse is then the same as for a response whose header reads "0"
    (indistinguishable from a true zero, including for the both-zero
    condition of the rejected fallback). *)
Theorem get_header_f64_unusable_is_zero parse_f64 parse_i64 r name :
  In name [ "anthropic-ratelimit-unified-5h-utilization";
            "anthropic-ratelimit-unified-7d-utilization" ] ->
  (header r name = None \/ exists v, header r name = Some v /\ parse_f64 v = None) ->
  get_header_f64 parse_f64 r name = 0%float /\
  (get_header_f64 parse_f64 r name * 100)%float = 0%float /\
  (parse_f64 "0" = Some 0%float ->
   parse_headers parse_f64 parse_i64 r = parse_headers parse_f64 parse_i64 ((name, "0") :: r)).
Proof.
  intros Hin Hbad.
  assert (H0 : get_header_f64 parse_f64 r name = 0%float).
  { unfold get_header_f64.
    destruct Hbad as [-> | (v & -> & Hv)]; [reflexivity|]. simpl. now rewrite Hv. }
  split; [exact H0|]. split; [rewrite H0; reflexivity|].
  intro Hz.
  destruct Hin as [<-|[<-|[]]]; apply parse_headers_congr;
    unfold get_header_f64 in *; rewrite ?header_cons; simpl; rewrite ?Hz; congruence.
Qed.

Lemma get_header_f64_unusable_is_zero_witness :
  let r := [("anthropic-ratelimit-unified-5h-utilization", "n/a")] in
  get_header_f64 Samples.parse_f64 r "anthropic-ratelimit-unified-5h-utilization" = 0%float /\
  parse_headers Samples.parse_f64 Samples.parse_i64 r =
  parse_headers Samples.parse_f64 Samples.parse_i64
    (("anthropic-ratelimit-unified-5h-utilization", "0") :: r).
Proof.
  intro r.
  destruct (get_header_f64_unusable_is_zero Samples.parse_f64 Samples.parse_i64 r
              "anthropic-ratelimit-unified-5h-utilization") as (H1 & _ & H3).
  - left. reflexivity.
  - right. exists "n/a". split; reflexivity.
  - split; [exact H1 | apply H3; reflexivity].
Defined.

(** C6: the token step of [poll]. Without an expiry the stored access
    token is used (it is never considered expired); once [now >= expires_at]
    a missing refresh token or a failed refresh fails the poll with
    [TokenExpired], and a successful refresh yields the token the fetch
    uses. *)
Theorem poll_token_validation parse_f64 parse_i64 c now refresh send :
  (expires_at c = None ->
   is_token_expired now (expires_at c) = false /\
   poll parse_f64 parse_i64 (Some c) now refresh send =
   fetch_usage_with_fallback parse_f64 parse_i64 send (access_token c)) /\
  (forall exp, expires_at c = Some exp -> exp <= now ->
   (refresh_token c = None ->
    poll parse_f64 parse_i64 (Some c) now refresh send = Err TokenExpired) /\
   (forall rt e, refresh_token c = Some rt -> refresh rt = Err e ->
    poll parse_f64 parse_i64 (Some c) now refresh send = Err TokenExpired) /\
   (forall rt t, refresh_token c = Some rt -> refresh rt = Ok t ->
    poll parse_f64 parse_i64 (Some c) now refresh send =
    fetch_usage_with_fallback parse_f64 parse_i64 send t)).
Proof.
  unfold poll, is_token_expired. split.
  - intros ->. split; reflexivity.
  - intros exp -> Hle. rewrite (proj2 (Z.leb_le exp now) Hle).
    split; [intros ->; reflexivity|].
    split; intros rt x -> Hr; rewrite Hr; reflexivity.
Qed.

Lemma poll_token_validation_witness :
  let c := mkCreds "stale" (Some "refresh") (Some 1000) in
  let send := Samples.send_always (SendTransport "offline") in
  poll Samples.parse_f64 Samples.parse_i64 (Some c) 2000 (fun _ => Ok "fresh") send =
  fetch_usage_with_fallback Samples.parse_f64 Samples.parse_i64 send "fresh" /\
  poll Samples.parse_f64 Samples.parse_i64 (Some (mkCreds "stale" None (Some 1000))) 2000
    (fun _ => Ok "fresh") send = Err TokenExpired /\
  poll Samples.parse_f64 Samples.parse_i64 (Some (mkCreds "tok" None None)) 2000
    (fun _ => Ok "fresh") send =
  fetch_usage_with_fallback Samples.parse_f64 Samples.parse_i64 send "tok".
Proof.
  intros c send. split; [|split].
  - destruct (poll_token_validation Samples.parse_f64 Samples.parse_i64 c 2000
                (fun _ => Ok "fresh") send) as (_ & H).
    destruct (H 1000 eq_refl ltac:(lia)) as (_ & _ & H3).
    exact (H3 "refresh" "fresh" eq_refl eq_refl).
  - destruct (poll_token_validation Samples.parse_f64 Samples.parse_i64
                (mkCreds "stale" None (Some 1000)) 2000 (fun _ => Ok "fresh") send) as (_ & H).
    exact (proj1 (H 1000 eq_refl ltac:(lia)) eq_refl).
  - exact (proj2 (proj1 (poll_token_validation Samples.parse_f64 Samples.parse_i64
                (mkCreds "tok" None None) 2000 (fun _ => Ok "fresh") send) eq_refl)).
Defined.

Lemma u32_saturating_add_1 r :
  0 <= r <= U32_MAX ->
  u32_saturating_add r 1 = (if r <? U32_MAX then r + 1 else U32_MAX).
Proof.
  intro H. unfold u32_saturating_add.
  destruct (Z.ltb_spec r U32_MAX); lia.
Qed.

(** The failure branch's delay: the saturating [u32] computation equals
    the exact [min(30000 * 2^(k-1), interval)] for every retry count [k]. *)
Lemma backoff_ms_exact k p :
  1 <= k <= U32_MAX -> 0 <= p <= U32_MAX ->
  Z.min (u32_saturating_mul RETRY_BASE_MS
           (match u32_checked_shl 1 (k - 1) with Some v => v | None => U32_MAX end)) p =
  Z.min (RETRY_BASE_MS * 2 ^ (k - 1)) p.
Proof.
  intros Hk Hp. unfold u32_checked_shl, u32_saturating_mul, RETRY_BASE_MS.
  destruct (Z.ltb_spec (k - 1) 32) as [Hlt|Hge].
  - rewrite Z.shiftl_1_l.
    assert (Hq : 0 <= 2 ^ (k - 1) < 2 ^ 32)
      by (split; [apply Z.pow_nonneg | apply Z.pow_lt_mono_r]; lia).
    replace (Z.land (2 ^ (k - 1)) U32_MAX) with (2 ^ (k - 1)).
    + unfold U32_MAX in *. lia.
    + change U32_MAX with (Z.ones 32).
      rewrite Z.land_ones by lia. now rewrite Z.mod_small.
  - assert (Hq : 2 ^ 32 <= 2 ^ (k - 1)) by (apply Z.pow_le_mono_r; lia).
    unfold U32_MAX in *. lia.
Qed.

(** C2: after a failed poll the retry count [k] is at least 1 (the old
    count plus one, saturating at [u32::MAX]) and the poll timer is set to
    [min(30 s * 2^(k-1), steady interval)], exactly, for every [k]; a
    successful poll then resets the count to 0 and restores the steady
    timer, so that the next failure schedules [min(30 s, interval)], i.e.
    30 s for any interval of at least 30 s. *)
Theorem do_poll_failure_backoff fmt_pct now e w s :
  app w = Some s ->
  0 <= retry_count s <= U32_MAX -> 0 <= poll_interval_ms s <= U32_MAX ->
  let w' := do_poll fmt_pct now (Err e) w in
  exists s', app w' = Some s' /\
    retry_count s' = (if retry_count s <? U32_MAX then retry_count s + 1 else U32_MAX) /\
    1 <= retry_count s' /\
    last_poll_ok s' = false /\
    poll_interval_ms s' = poll_interval_ms s /\
    t_poll (timers w') =
      Some (Z.min (RETRY_BASE_MS * 2 ^ (retry_count s' - 1)) (poll_interval_ms s)) /\
    (forall d, let w'' := do_poll fmt_pct now (Ok d) w' in
     option_map retry_count (app w'') = Some 0 /\
     t_poll (timers w'') = Some (poll_interval_ms s) /\
     (forall e', RETRY_BASE_MS <= poll_interval_ms s ->
      t_poll (timers (do_poll fmt_pct now (Err e') w'')) = Some RETRY_BASE_MS)).
Proof.
  intros Hs Hr Hp. cbv zeta.
  set (k := u32_saturating_add (retry_count s) 1).
  assert (Hw : do_poll fmt_pct now (Err e) w =
    mkWorld (Some (mkApp (session_percent s) "..." (weekly_percent s) "..." (data s)
                         (poll_interval_ms s) k false))
            (set_poll_timer (timers w)
               (Z.min (u32_saturating_mul RETRY_BASE_MS
                         (match u32_checked_shl 1 (k - 1) with
                          | Some v => v | None => U32_MAX end))
                      (poll_interval_ms s))))
    by (unfold do_poll; rewrite Hs; reflexivity).
  rewrite Hw. eexists. split; [reflexivity|]. simpl.
  assert (Hk : k = (if retry_count s <? U32_MAX then retry_count s + 1 else U32_MAX))
    by (apply u32_saturating_add_1; exact Hr).
  assert (Hkb : 1 <= k <= U32_MAX)
    by (rewrite Hk; destruct (Z.ltb_spec (retry_count s) U32_MAX); unfold U32_MAX in *; lia).
  split; [exact Hk|]. split; [lia|]. split; [reflexivity|]. split; [reflexivity|].
  split; [f_equal; apply backoff_ms_exact; assumption|].
  intros d. unfold do_poll. simpl.
  rewrite (proj2 (Z.ltb_lt 0 k)) by lia. simpl.
  split; [reflexivity|]. split; [reflexivity|].
  intros e' Hb. simpl. unfold u32_saturating_mul, RETRY_BASE_MS, U32_MAX in *. f_equal. lia.
Qed.

Lemma do_poll_failure_backoff_witness :
  t_poll (timers (do_poll Samples.fmt_pct 0 (Err NoCredentials) initial_world)) =
  Some (Z.min (RETRY_BASE_MS * 2 ^ (1 - 1)) POLL_15_MIN).
Proof.
  destruct (do_poll_failure_backoff Samples.fmt_pct 0 NoCredentials initial_world initial_app
              eq_refl ltac:(vm_compute; split; discriminate)
              ltac:(vm_compute; split; discriminate))
    as (s' & Hs' & Hr & _ & _ & _ & Ht & _).
  rewrite Ht, Hr. reflexivity.
Defined.

(** C7 (as the code does it): choosing an update frequency sets the steady
    interval and reschedules the poll timer at the new interval, whatever
    the retry count (also in backoff); the retry count, the other timers
    and the rest of the state are unchanged. *)
Theorem on_user_changed_interval_reschedules id w :
  let w' := on_user_changed_interval id w in
  t_poll (timers w') = Some (interval_of_menu_id id) /\
  t_countdown (timers w') = t_countdown (timers w) /\
  t_reset_poll (timers w') = t_reset_poll (timers w) /\
  option_map poll_interval_ms (app w') = option_map (fun _ => interval_of_menu_id id) (app w) /\
  option_map (fun s => (retry_count s, last_poll_ok s, session_text s, weekly_text s, data s))
    (app w') =
  option_map (fun s => (retry_count s, last_poll_ok s, session_text s, weekly_text s, data s))
    (app w).
Proof. destruct w as [[s|] t]; repeat split. Qed.

(** C7 counterexample: after two failed polls (backoff, retry count 2,
    poll timer at 60 s) choosing the one-hour frequency moves the pending
    poll to one hour: the backoff cadence is not kept. *)
Lemma user_changed_interval_overrides_backoff :
  let w_b := do_poll Samples.fmt_pct 0 (Err NoCredentials)
               (do_poll Samples.fmt_pct 0 (Err NoCredentials) initial_world) in
  option_map retry_count (app w_b) = Some 2 /\
  t_poll (timers w_b) = Some 60000 /\
  t_poll (timers (on_user_changed_interval IDM_FREQ_1HOUR w_b)) = Some 3600000.
Proof. vm_compute. repeat split. Qed.

Lemma schedule_countdown_timer_app now w :
  app (schedule_countdown_timer now w) = app w.
Proof.
  unfold schedule_countdown_timer.
  destruct (app w) as [s|] eqn:E; [|congruence].
  destruct (data s); simpl; congruence.
Qed.


(** C8: a countdown tick leaves both display texts unchanged when the
    last poll failed; when it succeeded, both texts are recomputed from the
    stored usage data. *)
Theorem countdown_tick_texts fmt_pct now w s :
  app w = Some s ->
  (last_poll_ok s = false ->
   texts_of (on_countdown_tick fmt_pct now w) = Some (session_text s, weekly_text s)) /\
  (last_poll_ok s = true -> forall d, data s = Some d ->
   texts_of (on_countdown_tick fmt_pct now w) =
   Some (format_line fmt_pct now (session d), format_line fmt_pct now (weekly d))).
Proof.
  intros Hs. unfold on_countdown_tick, texts_of.
  rewrite schedule_countdown_timer_app. unfold update_display. rewrite Hs.
  split.
  - intros ->. simpl. now rewrite Hs.
  - intros -> d Hd. simpl. now rewrite Hd.
Qed.

Lemma countdown_tick_texts_witness :
  let d := mkUsage (mkSection 42%float (Some (10800 * NANOS_PER_SEC))) (mkSection 0%float None) in
  let s_err := mkApp 42%float "..." 0%float "..." (Some d) POLL_15_MIN 1 false in
  let s_ok := mkApp 42%float "--" 0%float "--" (Some d) POLL_15_MIN 0 true in
  let t := mkTimers (Some POLL_15_MIN) None None in
  texts_of (on_countdown_tick Samples.fmt_pct 0 (mkWorld (Some s_err) t)) = Some ("...", "...") /\
  texts_of (on_countdown_tick Samples.fmt_pct 0 (mkWorld (Some s_ok) t)) =
  Some (format_line Samples.fmt_pct 0 (session d), format_line Samples.fmt_pct 0 (weekly d)).
Proof.
  intros d s_err s_ok t. split.
  - exact (proj1 (countdown_tick_texts Samples.fmt_pct 0 (mkWorld (Some s_err) t) s_err eq_refl)
                 eq_refl).
  - exact (proj2 (countdown_tick_texts Samples.fmt_pct 0 (mkWorld (Some s_ok) t) s_ok eq_refl)
                 eq_refl d eq_refl).
Defined.

(** * Further properties of the code *)

Lemma unix_to_system_time_nonneg o t :
  unix_to_system_time o = Some t -> 0 <= t.
Proof.
  destruct o as [z|]; simpl; [|discriminate].
  destruct (Z.ltb_spec z 0); intro Ht; inversion Ht; subst.
  unfold NANOS_PER_SEC. lia.
Qed.

(** Where [parse_headers] takes the two reset times from. *)
Lemma parse_headers_resets parse_f64 parse_i64 r :
  resets_at (weekly (parse_headers parse_f64 parse_i64 r)) =
    unix_to_system_time (get_header_i64 parse_i64 r "anthropic-ratelimit-unified-7d-reset") /\
  resets_at (session (parse_headers parse_f64 parse_i64 r)) =
    match unix_to_system_time (get_header_i64 parse_i64 r "anthropic-ratelimit-unified-5h-reset") with
    | Some t => Some t
    | None =>
        if PrimFloat.eqb (get_header_f64 parse_f64 r "anthropic-ratelimit-unified-5h-utilization" * 100) 0
           && PrimFloat.eqb (get_header_f64 parse_f64 r "anthropic-ratelimit-unified-7d-utilization" * 100) 0
        then unix_to_system_time (get_header_i64 parse_i64 r "anthropic-ratelimit-unified-reset")
        else None
    end.
Proof.
  unfold parse_headers, set_percentage, set_resets_at, usage_default, section_default.
  cbn [session weekly percentage resets_at].
  set (u5 := unix_to_system_time (get_header_i64 parse_i64 r "anthropic-ratelimit-unified-5h-reset")).
  set (o := get_header_i64 parse_i64 r "anthropic-ratelimit-unified-reset").
  destruct (_ && _) eqn:Hz.
  - destruct (as_deref_is _ "rejected");
      [destruct (as_deref_is _ "five_hour"); [|destruct (as_deref_is _ "seven_day")]|];
      cbn [session weekly percentage resets_at]; split; try reflexivity;
      destruct u5; try reflexivity; destruct o; reflexivity.
  - split; [reflexivity|]. destruct u5; reflexivity.
Qed.

(** X1: the weekly reset time is always the 7d-reset header's; the session
    reset time is the 5h-reset header's when that one is usable, and only
    when both utilisations are zero does the overall reset header stand in
    for it. Every reset time [parse_headers] yields is at or after the
    epoch: negative header values are dropped. *)
Theorem parse_headers_reset_sources parse_f64 parse_i64 r :
  let d := parse_headers parse_f64 parse_i64 r in
  resets_at (weekly d) =
    unix_to_system_time (get_header_i64 parse_i64 r "anthropic-ratelimit-unified-7d-reset") /\
  resets_at (session d) =
    match unix_to_system_time (get_header_i64 parse_i64 r "anthropic-ratelimit-unified-5h-reset") with
    | Some t => Some t
    | None =>
        if PrimFloat.eqb (get_header_f64 parse_f64 r "anthropic-ratelimit-unified-5h-utilization" * 100) 0
           && PrimFloat.eqb (get_header_f64 parse_f64 r "anthropic-ratelimit-unified-7d-utilization" * 100) 0
        then unix_to_system_time (get_header_i64 parse_i64 r "anthropic-ratelimit-unified-reset")
        else None
    end /\
  (forall t, resets_at (session d) = Some t \/ resets_at (weekly d) = Some t -> 0 <= t).
Proof.
  cbv zeta. destruct (parse_headers_resets parse_f64 parse_i64 r) as [Hw Hs].
  split; [exact Hw|]. split; [exact Hs|].
  intros t [H|H].
  - rewrite Hs in H.
    destruct (unix_to_system_time
                (get_header_i64 parse_i64 r "anthropic-ratelimit-unified-5h-reset")) eqn:E.
    + inversion H; subst. exact (unix_to_system_time_nonneg _ _ E).
    + destruct (_ && _); [exact (unix_to_system_time_nonneg _ _ H)|discriminate].
  - rewrite Hw in H. exact (unix_to_system_time_nonneg _ _ H).
Qed.

Lemma str_app_assoc (a b c : string) : (a ++ b) ++ c = a ++ (b ++ c).
Proof. induction a as [|x a IH]; simpl; [reflexivity|now rewrite IH]. Qed.

Lemma str_app_nonempty_r (a b : string) : b <> "" -> a ++ b <> "".
Proof. destruct a; simpl; [tauto|discriminate]. Qed.

Lemma dec_aux_nonempty f n acc : acc <> "" -> Text.dec_aux f n acc <> "".
Proof.
  revert n acc. induction f as [|f IH]; intros n acc H; simpl; [exact H|].
  destruct (Z.ltb n 10); [discriminate|apply IH; discriminate].
Qed.

Lemma dec_aux_S f n acc :
  Text.dec_aux (S f) n acc =
  if Z.ltb n 10 then String (Text.digit (n mod 10)) acc
  else Text.dec_aux f (n / 10) (String (Text.digit (n mod 10)) acc).
Proof. reflexivity. Qed.

Lemma dec_nonempty n : Text.dec n <> "".
Proof.
  unfold Text.dec. rewrite dec_aux_S.
  destruct (Z.ltb n 10); [discriminate|apply dec_aux_nonempty; discriminate].
Qed.

Lemma format_countdown_nonempty now t : format_countdown now (Some t) <> "".
Proof.
  unfold format_countdown.
  destruct (duration_since t now); [|discriminate].
  repeat match goal with |- context [if ?b then _ else _] => destruct b end;
    apply str_app_nonempty_r || apply dec_nonempty; discriminate.
Qed.

(** X2: a display line is the formatted percentage and "%" alone exactly
    when the section has no reset time; otherwise " · " and the
    countdown follow, and that countdown is never empty. *)
Theorem format_line_shape fmt_pct now sec :
  format_line fmt_pct now sec =
    (fmt_pct (percentage sec) ++ "%" ++
     match resets_at sec with
     | None => ""
     | Some _ => " " ++ String (ascii_of_nat 194) (String (ascii_of_nat 183) "")
                 ++ " " ++ format_countdown now (resets_at sec)
     end)%string /\
  (forall t, resets_at sec = Some t -> format_countdown now (Some t) <> "").
Proof.
  split; [|intros t _; apply format_countdown_nonempty].
  unfold format_line. destruct (resets_at sec) as [t|] eqn:E.
  - destruct (String.eqb_spec (format_countdown now (Some t)) "") as [H|H].
    + exfalso. exact (format_countdown_nonempty now t H).
    + rewrite str_app_assoc. reflexivity.
  - reflexivity.
Qed.

Lemma is_past_reset_iff now d :
  is_past_reset now d = true <->
  exists t, (resets_at (session d) = Some t \/ resets_at (weekly d) = Some t) /\ t <= now.
Proof.
  unfold is_past_reset, duration_since.
  destruct (resets_at (session d)) as [a|], (resets_at (weekly d)) as [b|]; simpl;
    repeat match goal with |- context [Z.leb ?x ?y] => destruct (Z.leb_spec x y) end;
    simpl; split; try discriminate; try (intros _; eexists; split; [|eassumption]; tauto);
    intros (t & [Hq|Hq] & Ht); try discriminate; inversion Hq; subst; lia.
Qed.





(** X5: a countdown tick never touches the poll timer, the retry count,
    the ok flag, the stored data, the percentages or the interval: it only
    rewrites the texts and re-arms the countdown and reset-poll timers. *)
Theorem on_countdown_tick_frame fmt_pct now w :
  let w' := on_countdown_tick fmt_pct now w in
  t_poll (timers w') = t_poll (timers w) /\
  option_map (fun s => (session_percent s, weekly_percent s, data s,
                        poll_interval_ms s, retry_count s, last_poll_ok s)) (app w') =
  option_map (fun s => (session_percent s, weekly_percent s, data s,
                        poll_interval_ms s, retry_count s, last_poll_ok s)) (app w).
Proof.
  cbv zeta. unfold on_countdown_tick. rewrite schedule_countdown_timer_app.
  split.
  - assert (Ht : timers (update_display fmt_pct now w) = timers w).
    { unfold update_display. destruct (app w) as [s|]; [|reflexivity].
      destruct (last_poll_ok s); [|reflexivity]. destruct (data s); reflexivity. }
    unfold schedule_countdown_timer.
    destruct (app (update_display fmt_pct now w)) as [s|];
      [destruct (data s) as [d|]; [destruct (is_past_reset now d)|]|];
      simpl; rewrite Ht; reflexivity.
  - unfold update_display. destruct (app w) as [s|] eqn:Ea; [|simpl; rewrite Ea; reflexivity].
    destruct (last_poll_ok s) eqn:Ho; [|simpl; rewrite Ea; reflexivity].
    destruct (data s) eqn:Hd; simpl; rewrite ?Ea; simpl; rewrite ?Hd, ?Ho; reflexivity.
Qed.

Lemma time_until_display_change_bounds now r x :
  time_until_display_change now r = Some x ->
  NANOS_PER_SEC <= x < 86401 * NANOS_PER_SEC.
Proof.
  unfold time_until_display_change, duration_since.
  destruct r as [t|]; [|discriminate].
  destruct (Z.leb_spec now t) as [Hle|]; [|discriminate].
  set (rem := t - now).
  set (ts := rem / NANOS_PER_SEC).
  assert (H1 : NANOS_PER_SEC * ts <= rem < NANOS_PER_SEC * ts + NANOS_PER_SEC).
  { pose proof (Z.div_mod rem NANOS_PER_SEC ltac:(discriminate)).
    pose proof (Z.mod_pos_bound rem NANOS_PER_SEC ltac:(reflexivity)). unfold ts. lia. }
  pose proof (Z.div_mod ts 60 ltac:(discriminate)).
  pose proof (Z.mod_pos_bound ts 60 ltac:(reflexivity)).
  pose proof (Z.div_mod ts 3600 ltac:(discriminate)).
  pose proof (Z.mod_pos_bound ts 3600 ltac:(reflexivity)).
  pose proof (Z.div_mod ts 86400 ltac:(discriminate)).
  pose proof (Z.mod_pos_bound ts 86400 ltac:(reflexivity)).
  unfold NANOS_PER_SEC in *.
  repeat match goal with
         | |- context [if ?b then _ else _] => destruct b eqn:?
         end;
    repeat match goal with
           | H : Z.leb _ _ = _ |- _ => first [apply Z.leb_le in H | apply Z.leb_gt in H]
           | H : Z.ltb _ _ = _ |- _ => first [apply Z.ltb_lt in H | apply Z.ltb_ge in H]
           end;
    intro Hx; inversion Hx; subst; lia.
Qed.

(** X6: whenever data is stored, [schedule_countdown_timer] arms the
    countdown timer with a period between 1 s and 86401 s (so the final
    cast to [u32] never truncates), and with exactly 60 s when neither
    section has a reset time; it arms the 5 s reset-poll timer exactly when
    a reset time is at or before [now], and leaves it as it was otherwise.
    The poll timer is never touched. *)
Theorem schedule_countdown_timer_periods now w s d :
  app w = Some s -> data s = Some d ->
  let w' := schedule_countdown_timer now w in
  (exists ms, t_countdown (timers w') = Some ms /\ 1000 <= ms <= 86401000 /\
     (resets_at (session d) = None -> resets_at (weekly d) = None -> ms = 60000)) /\
  t_reset_poll (timers w') =
    (if is_past_reset now d then Some 5000 else t_reset_poll (timers w)) /\
  (is_past_reset now d = true <->
   exists t, (resets_at (session d) = Some t \/ resets_at (weekly d) = Some t) /\ t <= now) /\
  t_poll (timers w') = t_poll (timers w).
Proof.
  intros Hs Hd. cbv zeta. unfold schedule_countdown_timer. rewrite Hs, Hd.
  split; [|split; [|split; [apply is_past_reset_iff|]]].
  - set (dur := match match time_until_display_change now (resets_at (session d)),
                          time_until_display_change now (resets_at (weekly d)) with
                    | Some a, Some b => Some (Z.min a b)
                    | Some a, None => Some a
                    | None, Some b => Some b
                    | None, None => None
                    end with Some x => x | None => 60 * NANOS_PER_SEC end).
    assert (Hb : NANOS_PER_SEC <= dur < 86401 * NANOS_PER_SEC).
    { unfold dur.
      destruct (time_until_display_change now (resets_at (session d))) as [a|] eqn:Ea,
               (time_until_display_change now (resets_at (weekly d))) as [b|] eqn:Eb;
        try apply time_until_display_change_bounds in Ea;
        try apply time_until_display_change_bounds in Eb;
        unfold NANOS_PER_SEC in *; lia. }
    exists (Z.max (dur / 1000000) 1000 mod (U32_MAX + 1)).
    assert (Hm : 1000 <= Z.max (dur / 1000000) 1000 <= 86401000).
    { unfold NANOS_PER_SEC in Hb.
      pose proof (Z.div_mod dur 1000000 ltac:(discriminate)).
      pose proof (Z.mod_pos_bound dur 1000000 ltac:(reflexivity)). lia. }
    rewrite Z.mod_small by (unfold U32_MAX; lia).
    split; [destruct (is_past_reset now d); reflexivity|]. split; [exact Hm|].
    intros E1 E2. unfold dur. rewrite E1, E2. reflexivity.
  - destruct (is_past_reset now d); reflexivity.
  - destruct (is_past_reset now d); reflexivity.
Qed.

Lemma schedule_countdown_timer_periods_witness :
  let d := mkUsage (mkSection 42%float None) (mkSection 7%float None) in
  let s := mkApp 42%float "42%" 7%float "7%" (Some d) POLL_15_MIN 0 true in
  t_countdown (timers (schedule_countdown_timer 0 (mkWorld (Some s) (mkTimers None None None))))
  = Some 60000.
Proof.
  intros d s.
  destruct (schedule_countdown_timer_periods 0 (mkWorld (Some s) (mkTimers None None None)) s d
              eq_refl eq_refl) as [(ms & Hms & _ & H60) _].
  rewrite Hms, (H60 eq_refl eq_refl). reflexivity.
Defined.

Lemma and_then_as_str o s :
  Creds.and_then o Creds.as_str = Some s <-> o = Some (Creds.JString s).
Proof.
  destruct o as [[]|]; simpl; split; intro H; try discriminate;
    inversion H; subst; reflexivity.
Qed.

Lemma and_then_as_i64 o n :
  Creds.and_then o Creds.as_i64 = Some n <->
  o = Some (Creds.Number (Creds.PosInt n)) /\ n <= Creds.I64_MAX \/
  o = Some (Creds.Number (Creds.NegInt n)).
Proof.
  destruct o as [[| |[m|m|f]| | |]|]; simpl;
    try (split; [discriminate|intros [[H _]|H]; discriminate]).
  - destruct (Z.leb_spec m Creds.I64_MAX).
    + split; [intro H1; inversion H1; subst; left; auto|].
      intros [[H1 _]|H1]; inversion H1; subst; reflexivity.
    + split; [discriminate|]. intros [[H1 H2]|H1]; inversion H1; subst; lia.
  - split; [intro H1; inversion H1; subst; right; reflexivity|].
    intros [[H1 _]|H1]; inversion H1; subst; reflexivity.
Qed.

(** X7: the credentials file yields credentials exactly when it parses to
    JSON with a "claudeAiOauth" entry whose "accessToken" is a string. The
    other two fields never make it fail: the refresh token is present only
    when "refreshToken" is a string, and the expiry only when "expiresAt"
    is an integer in the [i64] range; anything else is silently dropped. *)
Theorem read_credentials_fields json :
  (Creds.read_credentials json <> None <->
   exists v oauth a, json = Some v /\ Creds.get v "claudeAiOauth" = Some oauth /\
                     Creds.get oauth "accessToken" = Some (Creds.JString a)) /\
  (forall v oauth c, json = Some v -> Creds.get v "claudeAiOauth" = Some oauth ->
   Creds.read_credentials json = Some c ->
   Creds.get oauth "accessToken" = Some (Creds.JString (access_token c)) /\
   (forall rt, refresh_token c = Some rt <->
      Creds.get oauth "refreshToken" = Some (Creds.JString rt)) /\
   (forall n, expires_at c = Some n <->
      Creds.get oauth "expiresAt" = Some (Creds.Number (Creds.PosInt n)) /\ n <= Creds.I64_MAX \/
      Creds.get oauth "expiresAt" = Some (Creds.Number (Creds.NegInt n)))).
Proof.
  unfold Creds.read_credentials. split.
  - split.
    + destruct json as [v|]; simpl; [|tauto].
      destruct (Creds.get v "claudeAiOauth") as [oauth|] eqn:Ho; simpl; [|tauto].
      destruct (Creds.and_then (Creds.get oauth "accessToken") Creds.as_str) as [a|] eqn:E;
        simpl; [|tauto].
      intros _. apply and_then_as_str in E. exists v, oauth, a. auto.
    + intros (v & oauth & a & -> & Ho & Ha). simpl. rewrite Ho. simpl. rewrite Ha.
      discriminate.
  - intros v oauth c -> Ho. simpl. rewrite Ho. simpl.
    destruct (Creds.and_then (Creds.get oauth "accessToken") Creds.as_str) as [a|] eqn:E;
      simpl; [|discriminate].
    intro H. inversion H; subst; clear H. simpl.
    split; [apply and_then_as_str; exact E|].
    split; [intro rt; apply and_then_as_str|intro n; apply and_then_as_i64].
Qed.

Lemma read_credentials_fields_witness :
  Creds.read_credentials
    (Some (Creds.Object [("claudeAiOauth",
       Creds.Object [("accessToken", Creds.JString "tok");
                     ("expiresAt", Creds.Number (Creds.JFloat 1.7e12%float))])]))
  <> None.
Proof.
  apply (proj2 (proj1 (read_credentials_fields
    (Some (Creds.Object [("claudeAiOauth",
       Creds.Object [("accessToken", Creds.JString "tok");
                     ("expiresAt", Creds.Number (Creds.JFloat 1.7e12%float))])]))))).
  exists (Creds.Object [("claudeAiOauth",
       Creds.Object [("accessToken", Creds.JString "tok");
                     ("expiresAt", Creds.Number (Creds.JFloat 1.7e12%float))])]).
  eexists. exists "tok". split; [reflexivity|]. split; reflexivity.
Defined.

(** X8: an "expiresAt" written as a JSON float (or as an integer beyond
    [i64::MAX]) is dropped by [read_credentials], so the token is never
    considered expired: at any time [poll] goes straight to the usage
    request with the stored access token and never calls the refresh. *)
Theorem poll_ignores_unusable_expiry parse_f64 parse_i64 v oauth a now refresh send :
  Creds.get v "claudeAiOauth" = Some oauth ->
  Creds.get oauth "accessToken" = Some (Creds.JString a) ->
  (forall n, Creds.get oauth "expiresAt" <> Some (Creds.Number (Creds.NegInt n))) ->
  (forall n, n <= Creds.I64_MAX ->
   Creds.get oauth "expiresAt" <> Some (Creds.Number (Creds.PosInt n))) ->
  poll parse_f64 parse_i64 (Creds.read_credentials (Some v)) now refresh send =
  fetch_usage_with_fallback parse_f64 parse_i64 send a.
Proof.
  intros Ho Ha Hneg Hpos. unfold Creds.read_credentials. simpl.
  rewrite Ho. simpl. rewrite Ha. simpl.
  destruct (Creds.and_then (Creds.get oauth "expiresAt") Creds.as_i64) as [n|] eqn:E;
    [|reflexivity].
  exfalso. apply and_then_as_i64 in E. destruct E as [[E Hn]|E];
    [exact (Hpos n Hn E)|exact (Hneg n E)].
Qed.

Lemma poll_ignores_unusable_expiry_witness :
  let oauth := Creds.Object [("accessToken", Creds.JString "tok");
                             ("expiresAt", Creds.Number (Creds.JFloat 1.7e12%float))] in
  poll Samples.parse_f64 Samples.parse_i64
    (Creds.read_credentials (Some (Creds.Object [("claudeAiOauth", oauth)])))
    2000000000000 (fun _ => Err "refresh") (Samples.send_always (SendTransport "offline")) =
  fetch_usage_with_fallback Samples.parse_f64 Samples.parse_i64
    (Samples.send_always (SendTransport "offline")) "tok".
Proof.
  intro oauth.
  apply (poll_ignores_unusable_expiry Samples.parse_f64 Samples.parse_i64
           (Creds.Object [("claudeAiOauth", oauth)]) oauth "tok").
  - reflexivity.
  - reflexivity.
  - intros n. discriminate.
  - intros n _. discriminate.
Defined.

(** X9: [refresh_access_token] succeeds exactly when the refresh response
    is JSON with a string "access_token"; with an expired token, any other
    outcome (send error, unparsable body, missing or non-string field)
    fails the poll with [TokenExpired] before any usage request is sent. *)
Theorem poll_with_refresh parse_f64 parse_i64 c now http send exp rt :
  expires_at c = Some exp -> exp <= now -> refresh_token c = Some rt ->
  (forall t, Creds.refresh_access_token (http rt) = Ok t <->
   exists body, http rt = Creds.RefreshBody (Ok body) /\
                Creds.get body "access_token" = Some (Creds.JString t)) /\
  poll parse_f64 parse_i64 (Some c) now (fun r => Creds.refresh_access_token (http r)) send =
  match http rt with
  | Creds.RefreshBody (Ok body) =>
      match Creds.get body "access_token" with
      | Some (Creds.JString t) => fetch_usage_with_fallback parse_f64 parse_i64 send t
      | _ => Err TokenExpired
      end
  | _ => Err TokenExpired
  end.
Proof.
  intros He Hle Hr. split.
  - intro t. unfold Creds.refresh_access_token.
    destruct (http rt) as [msg|[body|msg]]; simpl;
      try (split; [discriminate|intros (b & Hb & _); discriminate]).
    destruct (Creds.and_then (Creds.get body "access_token") Creds.as_str) as [t'|] eqn:E.
    + apply and_then_as_str in E. split.
      * intro H. inversion H; subst. eauto.
      * intros (b & Hb & Hg). inversion Hb; subst. rewrite E in Hg. inversion Hg. reflexivity.
    + split; [discriminate|]. intros (b & Hb & Hg). inversion Hb; subst.
      apply (proj2 (and_then_as_str _ t)) in Hg. congruence.
  - unfold poll, is_token_expired. rewrite He, (proj2 (Z.leb_le exp now) Hle), Hr.
    unfold Creds.refresh_access_token.
    destruct (http rt) as [msg|[body|msg]]; try reflexivity.
    destruct (Creds.get body "access_token") as [[| |n|t| |]|]; reflexivity.
Qed.

Lemma poll_with_refresh_witness :
  poll Samples.parse_f64 Samples.parse_i64 (Some (mkCreds "old" (Some "rt") (Some 1000))) 2000
    (fun r => Creds.refresh_access_token
                (Creds.RefreshBody (Ok (Creds.Object [("error", Creds.JString "invalid_grant")]))))
    (Samples.send_always (SendTransport "offline")) = Err TokenExpired.
Proof.
  exact (proj2 (poll_with_refresh Samples.parse_f64 Samples.parse_i64
                  (mkCreds "old" (Some "rt") (Some 1000)) 2000
                  (fun _ => Creds.RefreshBody (Ok (Creds.Object [("error", Creds.JString "invalid_grant")])))
                  (Samples.send_always (SendTransport "offline")) 1000 "rt"
                  eq_refl ltac:(lia) eq_refl)).
Defined.

Lemma lor_shiftl_disjoint a b k :
  0 <= k -> 0 <= a < 2 ^ k -> Z.lor a (Z.shiftl b k) = a + b * 2 ^ k.
Proof.
  intros Hk Ha.
  assert (H0 : Z.land a (Z.shiftl b k) = 0).
  { apply Z.bits_inj'. intros n Hn. rewrite Z.land_spec, Z.bits_0.
    destruct (Z.lt_ge_cases n k) as [Hl|Hl].
    - rewrite Z.shiftl_spec_low by exact Hl. apply andb_false_r.
    - destruct (Z.eq_dec a 0) as [->|Hne]; [rewrite Z.bits_0; reflexivity|].
      rewrite Z.bits_above_log2; [reflexivity|lia|].
      assert (Hlog : Z.log2 a < k) by (apply Z.log2_lt_pow2; lia). lia. }
  rewrite <- Z.lxor_lor by exact H0. rewrite <- Z.add_nocarry_lxor by exact H0.
  rewrite Z.shiftl_mul_pow2 by exact Hk. reflexivity.
Qed.

(** X10: [colorref] packs three bytes without overlap: the value is
    [r + 256 g + 65536 b], below [2^24], and the red, green and blue bytes
    read back from it with masks and shifts. *)
Theorem colorref_bytes r g b :
  0 <= r < 256 -> 0 <= g < 256 -> 0 <= b < 256 ->
  let c := Interop.colorref r g b in
  c = r + 256 * g + 65536 * b /\ 0 <= c < 2 ^ 24 /\
  Z.land c 255 = r /\ Z.land (Z.shiftr c 8) 255 = g /\ Z.shiftr c 16 = b.
Proof.
  intros Hr Hg Hb. cbv zeta.
  assert (Hc : Interop.colorref r g b = r + 256 * g + 65536 * b).
  { unfold Interop.colorref.
    rewrite (lor_shiftl_disjoint r g 8) by (cbn; lia).
    rewrite (lor_shiftl_disjoint (r + g * 2 ^ 8) b 16) by (cbn; lia).
    change (2 ^ 8) with 256. change (2 ^ 16) with 65536. lia. }
  rewrite Hc. change 255 with (Z.ones 8).
  rewrite !Z.land_ones, !Z.shiftr_div_pow2 by lia.
  change (2 ^ 8) with 256. change (2 ^ 16) with 65536. change (2 ^ 24) with 16777216.
  assert (M1 : (r + 256 * g + 65536 * b) mod 256 = r)
    by (symmetry; apply (Z.mod_unique _ _ (g + 256 * b)); lia).
  assert (D1 : (r + 256 * g + 65536 * b) / 256 = g + 256 * b)
    by (symmetry; apply (Z.div_unique _ _ _ r); lia).
  assert (M2 : (g + 256 * b) mod 256 = g)
    by (symmetry; apply (Z.mod_unique _ _ b); lia).
  assert (D2 : (r + 256 * g + 65536 * b) / 65536 = b)
    by (symmetry; apply (Z.div_unique _ _ _ (r + 256 * g)); lia).
  rewrite M1, D1, M2, D2. repeat split; lia.
Qed.

Lemma colorref_bytes_witness :
  Interop.colorref 217 119 87 = 217 + 256 * 119 + 65536 * 87.
Proof.
  exact (proj1 (colorref_bytes 217 119 87 ltac:(lia) ltac:(lia) ltac:(lia))).
Defined.

Lemma hex_digit_facts d :
  0 <= d < 16 ->
  Interop.hex_val (HexText.hex_digit d) = Some d /\
  Ascii.eqb (HexText.hex_digit d) "#" = false /\
  Ascii.eqb (HexText.hex_digit d) "+" = false /\
  Ascii.eqb (HexText.hex_digit d) "-" = false /\
  (128 <=? nat_of_ascii (HexText.hex_digit d))%nat = false.
Proof.
  intro H.
  assert (d = 0 \/ d = 1 \/ d = 2 \/ d = 3 \/ d = 4 \/ d = 5 \/ d = 6 \/ d = 7 \/ d = 8 \/
          d = 9 \/ d = 10 \/ d = 11 \/ d = 12 \/ d = 13 \/ d = 14 \/ d = 15) as Hd by lia.
  repeat destruct Hd as [Hd|Hd]; subst d; vm_compute; repeat split.
Qed.

Lemma u8_from_str_radix16_two a1 a2 d1 d2 :
  0 <= d1 < 16 -> 0 <= d2 < 16 ->
  Interop.hex_val a1 = Some d1 -> Interop.hex_val a2 = Some d2 ->
  Ascii.eqb a1 "+" = false ->
  Interop.u8_from_str_radix16 (String a1 (String a2 "")) = Some (d1 * 16 + d2).
Proof.
  intros H1 H2 E1 E2 P. unfold Interop.u8_from_str_radix16.
  rewrite P, andb_false_r. simpl. rewrite E1, E2. simpl.
  repeat match goal with
         | |- context [Z.ltb ?a ?b] => rewrite (proj2 (Z.ltb_ge a b)) by lia
         end.
  reflexivity.
Qed.

(** X11: [Color::from_hex] reads back every colour written as "#" and two
    upper-case hexadecimal digits per byte; and it panics (here: [None])
    whenever fewer than six bytes remain after the leading '#' characters,
    e.g. on "#FFF". *)
Theorem from_hex_hex2 r g b :
  0 <= r < 256 -> 0 <= g < 256 -> 0 <= b < 256 ->
  Interop.from_hex ("#" ++ HexText.hex2 r ++ HexText.hex2 g ++ HexText.hex2 b) =
    Some (Interop.mkColor r g b) /\
  (forall s, (String.length (Interop.trim_hash s) < 6)%nat -> Interop.from_hex s = None).
Proof.
  intros Hr Hg Hb. split.
  - unfold HexText.hex2.
    assert (Q : forall v, 0 <= v < 256 -> 0 <= v / 16 < 16 /\ 0 <= v mod 16 < 16 /\
                                          v = v / 16 * 16 + v mod 16).
    { intros v Hv. pose proof (Z.div_mod v 16 ltac:(discriminate)).
      pose proof (Z.mod_pos_bound v 16 ltac:(reflexivity)). split; [|split]; lia. }
    destruct (Q r Hr) as (Qr1 & Qr2 & Qr), (Q g Hg) as (Qg1 & Qg2 & Qg),
             (Q b Hb) as (Qb1 & Qb2 & Qb).
    destruct (hex_digit_facts _ Qr1) as (Vr1 & Hr1 & Pr1 & _ & Br1),
             (hex_digit_facts _ Qr2) as (Vr2 & _ & _ & _ & Br2),
             (hex_digit_facts _ Qg1) as (Vg1 & _ & Pg1 & _ & Bg1),
             (hex_digit_facts _ Qg2) as (Vg2 & _ & _ & _ & Bg2),
             (hex_digit_facts _ Qb1) as (Vb1 & _ & Pb1 & _ & Bb1),
             (hex_digit_facts _ Qb2) as (Vb2 & _ & _ & _ & Bb2).
    revert Vr1 Hr1 Pr1 Br1 Vr2 Br2 Vg1 Pg1 Bg1 Vg2 Bg2 Vb1 Pb1 Bb1 Vb2 Bb2.
    generalize (HexText.hex_digit (r / 16)) as r1, (HexText.hex_digit (r mod 16)) as r2,
               (HexText.hex_digit (g / 16)) as g1, (HexText.hex_digit (g mod 16)) as g2,
               (HexText.hex_digit (b / 16)) as b1, (HexText.hex_digit (b mod 16)) as b2.
    intros r1 r2 g1 g2 b1 b2 Vr1 Hr1 Pr1 Br1 Vr2 Br2 Vg1 Pg1 Bg1 Vg2 Bg2 Vb1 Pb1 Bb1 Vb2 Bb2.
    unfold Interop.from_hex, Interop.slice, Interop.is_char_boundary.
    cbn -[Nat.leb Nat.ltb nat_of_ascii Interop.u8_from_str_radix16].
    rewrite Hr1.
    cbn -[Nat.leb Nat.ltb nat_of_ascii Interop.u8_from_str_radix16].
    rewrite Bg1, Bb1.
    cbn -[nat_of_ascii Interop.u8_from_str_radix16].
    rewrite (u8_from_str_radix16_two r1 r2 (r / 16) (r mod 16)),
            (u8_from_str_radix16_two g1 g2 (g / 16) (g mod 16)),
            (u8_from_str_radix16_two b1 b2 (b / 16) (b mod 16)) by assumption.
    cbn. rewrite <- Qr, <- Qg, <- Qb. reflexivity.
  - intros s Hs.
    assert (N6 : Interop.slice (Interop.trim_hash s) 4 6 = None).
    { unfold Interop.slice.
      destruct (Nat.leb_spec 6 (String.length (Interop.trim_hash s))); [lia|].
      reflexivity. }
    unfold Interop.from_hex. rewrite N6.
    destruct (Interop.slice (Interop.trim_hash s) 0 2),
             (Interop.slice (Interop.trim_hash s) 2 4); reflexivity.
Qed.

Lemma from_hex_hex2_witness :
  Interop.from_hex "#D97757" = Some (Interop.mkColor 217 119 87) /\
  Interop.from_hex "#FFF" = None.
Proof.
  split.
  - exact (proj1 (from_hex_hex2 217 119 87 ltac:(lia) ltac:(lia) ltac:(lia))).
  - apply (proj2 (from_hex_hex2 0 0 0 ltac:(lia) ltac:(lia) ltac:(lia))).
    vm_compute. repeat constructor.
Defined.

Lemma tray_event_cases is_tray now last :
  Tray.tray_event is_tray now last =
  if is_tray then
    match last with
    | Some t => if 501000000 <=? now - t then (true, Some now) else (false, last)
    | None => (true, Some now)
    end
  else (false, last).
Proof.
  unfold Tray.tray_event. destruct is_tray; [|reflexivity]. simpl.
  destruct last as [t|]; [|reflexivity].
  assert (E : (500 <? Z.max 0 (now - t) / 1000000) = (501000000 <=? now - t)).
  { pose proof (Z.div_mod (Z.max 0 (now - t)) 1000000 ltac:(discriminate)).
    pose proof (Z.mod_pos_bound (Z.max 0 (now - t)) 1000000 ltac:(reflexivity)).
    destruct (Z.ltb_spec 500 (Z.max 0 (now - t) / 1000000)),
             (Z.leb_spec 501000000 (now - t)); lia. }
  rewrite E. reflexivity.
Qed.

(** X12: the tray-location hook repositions the widget at most once per
    501 ms of the monotonic clock: along any sequence of events (whatever
    their times, since [duration_since] saturates at zero), the
    repositioning times are each at least 501 ms after the previous one.
    A tray event is acted on exactly when no repositioning happened yet or
    501 ms have passed since the last one; other windows' events are
    ignored and leave the throttle as it was. *)
Theorem tray_throttle_spacing last events :
  Spacing.spaced 501000000 last (Tray.tray_run last events) /\
  (forall now t, Tray.tray_event true now (Some t) =
     if 501000000 <=? now - t then (true, Some now) else (false, Some t)) /\
  (forall now, Tray.tray_event true now None = (true, Some now)) /\
  (forall now, Tray.tray_event false now last = (false, last)).
Proof.
  split; [|split; [|split]]; intros;
    try (rewrite tray_event_cases; reflexivity).
  revert last. induction events as [|[is_tray now] rest IH]; intro last; simpl; [exact I|].
  rewrite tray_event_cases.
  destruct is_tray; [|apply IH].
  destruct last as [t|].
  - destruct (Z.leb_spec 501000000 (now - t)); simpl; [split; [lia|apply IH]|apply IH].
  - simpl. split; [exact I|apply IH].
Qed.

Lemma i32_wrap_id z : - 2 ^ 31 <= z < 2 ^ 31 -> Layout.i32_wrap z = z.
Proof.
  intro H. unfold Layout.i32_wrap. rewrite Z.mod_small by lia. lia.
Qed.

(** X13: when the taskbar and tray coordinates are within [2^29] in
    absolute value, [position_at_taskbar] moves the 207 x 46 widget so that
    its right edge touches the tray's left edge (the taskbar's right edge
    when no tray is found), in taskbar coordinates when embedded and in
    screen coordinates otherwise; and in a taskbar at least 46 pixels high
    the widget is vertically centred, the odd pixel going below. *)
Theorem position_at_taskbar_geometry (embedded : bool) (tb : Layout.Rect) (tr : option Layout.Rect) :
  let tray_left := match tr with Some r => Layout.left r | None => Layout.right tb end in
  let top0 := if embedded then 0 else Layout.top tb in
  Z.abs (Layout.left tb) < 2 ^ 29 -> Z.abs (Layout.top tb) < 2 ^ 29 ->
  Z.abs (Layout.bottom tb) < 2 ^ 29 -> Z.abs tray_left < 2 ^ 29 ->
  exists x y,
    Layout.position_at_taskbar embedded (Some tb) tr =
      Some (x, y, Layout.total_widget_width, Layout.WIDGET_HEIGHT) /\
    Layout.total_widget_width = 207 /\
    x + Layout.total_widget_width = tray_left - (if embedded then Layout.left tb else 0) /\
    (Layout.WIDGET_HEIGHT <= Layout.bottom tb - Layout.top tb ->
     top0 <= y /\
     0 <= (Layout.bottom tb - Layout.top tb - Layout.WIDGET_HEIGHT) - 2 * (y - top0) <= 1).
Proof.
  cbv zeta. intros Hl Ht Hb Htr.
  unfold Layout.position_at_taskbar, Layout.total_widget_width, Layout.WIDGET_HEIGHT,
    Layout.LEFT_DIVIDER_W, Layout.DIVIDER_RIGHT_MARGIN, Layout.LABEL_WIDTH,
    Layout.LABEL_RIGHT_MARGIN, Layout.SEGMENT_W, Layout.SEGMENT_GAP, Layout.SEGMENT_COUNT,
    Layout.BAR_RIGHT_MARGIN, Layout.TEXT_WIDTH, Layout.RIGHT_MARGIN.
  set (tl := match tr with Some r => Layout.left r | None => Layout.right tb end) in *.
  assert (P : 2 ^ 29 = 536870912) by reflexivity.
  rewrite (i32_wrap_id (Layout.bottom tb - Layout.top tb)) by lia.
  rewrite (i32_wrap_id (Layout.bottom tb - Layout.top tb - 46)) by lia.
  set (H := Layout.bottom tb - Layout.top tb) in *.
  assert (Q : H - 46 >= 0 -> Z.quot (H - 46) 2 = (H - 46) / 2 /\
                             2 * ((H - 46) / 2) <= H - 46 <= 2 * ((H - 46) / 2) + 1).
  { intro Hn. rewrite Z.quot_div_nonneg by lia.
    pose proof (Z.div_mod (H - 46) 2 ltac:(discriminate)).
    pose proof (Z.mod_pos_bound (H - 46) 2 ltac:(reflexivity)). lia. }
  assert (Qb : Z.abs (Z.quot (H - 46) 2) <= Z.abs (H - 46)).
  { rewrite <- Z.quot_abs by lia. rewrite Z.quot_div_nonneg by lia.
    apply Z.div_le_upper_bound; [lia|]. pose proof (Z.abs_nonneg (H - 46)). lia. }
  destruct embedded.
  - rewrite (i32_wrap_id (tl - Layout.left tb)) by lia.
    rewrite i32_wrap_id by lia.
    eexists; eexists; split; [reflexivity|]. split; [reflexivity|]. split; [lia|].
    intro Hh. destruct (Q ltac:(lia)) as [-> Hq]. lia.
  - rewrite (i32_wrap_id (tl - _)) by lia.
    rewrite (i32_wrap_id (Layout.top tb + _)) by lia.
    eexists; eexists; split; [reflexivity|]. split; [reflexivity|]. split; [lia|].
    intro Hh. destruct (Q ltac:(lia)) as [-> Hq]. lia.
Qed.

Lemma position_at_taskbar_geometry_witness :
  Layout.position_at_taskbar false (Some (Layout.mkRect 0 1032 1920 1080))
    (Some (Layout.mkRect 1700 1032 1920 1080)) = Some (1493, 1033, 207, 46).
Proof.
  destruct (position_at_taskbar_geometry false (Layout.mkRect 0 1032 1920 1080)
              (Some (Layout.mkRect 1700 1032 1920 1080))
              ltac:(vm_compute; reflexivity) ltac:(vm_compute; reflexivity)
              ltac:(vm_compute; reflexivity) ltac:(vm_compute; reflexivity))
    as (x & y & E & Hw & Hx & Hy).
  rewrite E. rewrite Hw in Hx.
  cbn [Layout.left Layout.top Layout.bottom Layout.right] in Hx, Hy.
  destruct (Hy ltac:(vm_compute; discriminate)) as [Hy1 Hy2].
  unfold Layout.WIDGET_HEIGHT in *.
  assert (x = 1493) by lia. assert (y = 1033) by lia. subst. reflexivity.
Defined.

Lemma eq_ignore_ascii_case_congr a a' n :
  Text.eq_ignore_ascii_case a a' = true ->
  Text.eq_ignore_ascii_case a n = Text.eq_ignore_ascii_case a' n.
Proof.
  revert a' n. induction a as [|x a IH]; intros [|x' a'] [|y n] H; simpl in *;
    try discriminate; try reflexivity.
  apply andb_true_iff in H as [Hx Ha]. apply Ascii.eqb_eq in Hx.
  rewrite Hx, (IH a' n Ha). reflexivity.
Qed.

(** X14: the poller does not depend on the case of the response's header
    names: re-spelling any of them in other ASCII case (values unchanged)
    gives the same lookups, the same usage-header test and the same parsed
    usage data. *)
Theorem poller_header_case_insensitive parse_f64 parse_i64 (r r' : Response) :
  Forall2 (fun h h' => Text.eq_ignore_ascii_case (fst h) (fst h') = true /\ snd h = snd h') r r' ->
  (forall n, header r n = header r' n) /\
  has_rate_limit_headers r = has_rate_limit_headers r' /\
  parse_headers parse_f64 parse_i64 r = parse_headers parse_f64 parse_i64 r'.
Proof.
  intro HF.
  assert (Hh : forall n, header r n = header r' n).
  { intro n. induction HF as [|[a v] [a' v'] r r' [Ha Hv] _ IH]; [reflexivity|].
    simpl in Ha, Hv. subst v'. rewrite !header_cons, IH, (eq_ignore_ascii_case_congr a a' n Ha).
    reflexivity. }
  split; [exact Hh|]. split.
  - unfold has_rate_limit_headers. rewrite !Hh. reflexivity.
  - apply parse_headers_congr; unfold get_header_f64; rewrite ?Hh; reflexivity.
Qed.

Lemma poller_header_case_insensitive_witness :
  parse_headers Samples.parse_f64 Samples.parse_i64
    [("Anthropic-Ratelimit-Unified-Status", "rejected");
     ("Anthropic-Ratelimit-Unified-Representative-Claim", "five_hour")] =
  parse_headers Samples.parse_f64 Samples.parse_i64
    [("anthropic-ratelimit-unified-status", "rejected");
     ("anthropic-ratelimit-unified-representative-claim", "five_hour")].
Proof.
  apply (poller_header_case_insensitive Samples.parse_f64 Samples.parse_i64).
  repeat constructor.
Defined.

Lemma format_countdown_by_secs (now reset : SystemTime) :
  now <= reset ->
  let s := (reset - now) / NANOS_PER_SEC in
  (86400 <= s -> format_countdown now (Some reset) = Text.dec (s / 86400) ++ "d") /\
  (3720 <= s < 86400 -> format_countdown now (Some reset) = Text.dec (s / 3600) ++ "h") /\
  (61 <= s < 3720 -> format_countdown now (Some reset) = Text.dec (s / 60) ++ "m") /\
  (s <= 60 -> format_countdown now (Some reset) = Text.dec s).
Proof.
  intros H s. unfold format_countdown. rewrite duration_since_some by lia.
  fold s.
  assert (Hs : 0 <= s) by (unfold s, NANOS_PER_SEC; apply Z.div_pos; lia).
  pose proof (Z.div_mod s 60 ltac:(discriminate)).
  pose proof (Z.mod_pos_bound s 60 ltac:(reflexivity)).
  pose proof (Z.div_mod s 86400 ltac:(discriminate)).
  pose proof (Z.mod_pos_bound s 86400 ltac:(reflexivity)).
  repeat split; intros Hr;
    repeat match goal with
           | |- context [Z.leb ?a ?b] =>
               first [rewrite (proj2 (Z.leb_le a b)) by lia
                     | rewrite (proj2 (Z.leb_gt a b)) by lia]
           | |- context [Z.ltb ?a ?b] =>
               first [rewrite (proj2 (Z.ltb_lt a b)) by lia
                     | rewrite (proj2 (Z.ltb_ge a b)) by lia]
           end; reflexivity.
Qed.

(** The instant [time_until_display_change] aims at, outside the final
    minute: the remaining time drops to [B - 1] seconds, [B] being the
    tier boundary in seconds. *)
Lemma time_until_display_change_target (now reset : SystemTime) :
  now <= reset ->
  let s := (reset - now) / NANOS_PER_SEC in
  60 < s ->
  let B := if 86400 <=? s then s / 86400 * 86400
           else if 7200 <=? s then s / 3600 * 3600
           else if 3720 <=? s then 3660
           else s / 60 * 60 in
  60 <= B <= s /\
  time_until_display_change now (Some reset) =
    Some (reset - now - B * NANOS_PER_SEC + NANOS_PER_SEC).
Proof.
  intros H s Hs B.
  assert (Hr : NANOS_PER_SEC * s <= reset - now).
  { pose proof (Z.div_mod (reset - now) NANOS_PER_SEC ltac:(discriminate)).
    pose proof (Z.mod_pos_bound (reset - now) NANOS_PER_SEC ltac:(reflexivity)).
    unfold s. lia. }
  pose proof (Z.div_mod s 60 ltac:(discriminate)).
  pose proof (Z.mod_pos_bound s 60 ltac:(reflexivity)).
  pose proof (Z.div_mod s 3600 ltac:(discriminate)).
  pose proof (Z.mod_pos_bound s 3600 ltac:(reflexivity)).
  pose proof (Z.div_mod s 86400 ltac:(discriminate)).
  pose proof (Z.mod_pos_bound s 86400 ltac:(reflexivity)).
  assert (HB : 60 <= B <= s).
  { unfold B. destruct (Z.leb_spec 86400 s), (Z.leb_spec 7200 s), (Z.leb_spec 3720 s); lia. }
  split; [exact HB|].
  unfold time_until_display_change. rewrite duration_since_some by lia.
  fold s. cbv zeta.
  rewrite (proj2 (Z.leb_gt s 60)) by lia.
  assert (E : (if 1 <=? s / 86400 then s / 86400 * 86400 * NANOS_PER_SEC
               else if 61 <? s / 60 then
                 if 1 <? s / 3600 then s / 3600 * 3600 * NANOS_PER_SEC
                 else 61 * 60 * NANOS_PER_SEC
               else s / 60 * 60 * NANOS_PER_SEC) = B * NANOS_PER_SEC).
  { unfold B.
    destruct (Z.leb_spec 86400 s), (Z.leb_spec 7200 s), (Z.leb_spec 3720 s);
      repeat match goal with
             | |- context [Z.leb ?a ?b] =>
                 first [rewrite (proj2 (Z.leb_le a b)) by lia
                       | rewrite (proj2 (Z.leb_gt a b)) by lia]
             | |- context [Z.ltb ?a ?b] =>
                 first [rewrite (proj2 (Z.ltb_lt a b)) by lia
                       | rewrite (proj2 (Z.ltb_ge a b)) by lia]
             end; lia. }
  rewrite E.
  destruct (Z.ltb_spec 0 (Z.max 0 (reset - now - B * NANOS_PER_SEC))); f_equal;
    unfold NANOS_PER_SEC in *; lia.
Qed.

Lemma digit_code k : 0 <= k < 10 -> nat_of_ascii (Text.digit k) = (48 + Z.to_nat k)%nat.
Proof.
  intro H. unfold Text.digit. apply nat_ascii_embedding. lia.
Qed.

Lemma dec_aux_value f n acc :
  0 <= n < 10 ^ Z.of_nat f ->
  Samples.digits_val (Text.dec_aux f n acc) 0 = Samples.digits_val acc n.
Proof.
  revert n acc. induction f as [|f IH]; intros n acc Hn.
  - simpl in Hn. simpl. replace n with 0 by lia. reflexivity.
  - simpl Text.dec_aux.
    pose proof (Z.mod_pos_bound n 10 ltac:(reflexivity)).
    pose proof (Z.div_mod n 10 ltac:(discriminate)).
    assert (Hd : Samples.digits_val (String (Text.digit (n mod 10)) acc) (n / 10) =
                 Samples.digits_val acc n).
    { cbn [Samples.digits_val]. rewrite digit_code by lia.
      rewrite (proj2 (Nat.leb_le 48 _)) by lia. rewrite (proj2 (Nat.leb_le _ 57)) by lia.
      cbn [andb]. f_equal. lia. }
    destruct (Z.ltb_spec n 10) as [Hlt|Hge].
    + rewrite (Z.div_small n 10) in Hd by lia. exact Hd.
    + rewrite IH; [exact Hd|].
      rewrite Nat2Z.inj_succ, Z.pow_succ_r in Hn by lia.
      split; [apply Z.div_pos; lia|apply Z.div_lt_upper_bound; lia].
Qed.

Lemma dec_inj n m :
  0 <= n < 2 ^ 64 -> 0 <= m < 2 ^ 64 -> Text.dec n = Text.dec m -> n = m.
Proof.
  intros Hn Hm E.
  assert (P : 2 ^ 64 < 10 ^ Z.of_nat 32) by reflexivity.
  assert (Vn : Samples.digits_val (Text.dec n) 0 = Some n)
    by (unfold Text.dec; rewrite dec_aux_value by lia; reflexivity).
  assert (Vm : Samples.digits_val (Text.dec m) 0 = Some m)
    by (unfold Text.dec; rewrite dec_aux_value by lia; reflexivity).
  rewrite E in Vn. congruence.
Qed.

Lemma str_app_length (a b : string) : String.length (a ++ b) = (String.length a + String.length b)%nat.
Proof. induction a as [|x a IH]; simpl; [reflexivity|now rewrite IH]. Qed.

Lemma str_app_cancel_r (a a' b : string) : a ++ b = a' ++ b -> a = a'.
Proof.
  revert a'. induction a as [|x a IH]; intros [|x' a'] E; simpl in E.
  - reflexivity.
  - apply (f_equal String.length) in E. simpl in E. rewrite str_app_length in E. lia.
  - apply (f_equal String.length) in E. simpl in E. rewrite str_app_length in E. lia.
  - inversion E as [[Hx Ht]]. subst. f_equal. apply IH. exact Ht.
Qed.

Ltac zbools_in H :=
  repeat match type of H with
         | context [Z.leb ?a ?b] =>
             first [rewrite (proj2 (Z.leb_le a b)) in H by lia
                   | rewrite (proj2 (Z.leb_gt a b)) in H by lia]
         end.

Lemma div_exact_pred b q : 0 < b -> (q * b - 1) / b = q - 1.
Proof.
  intro Hb. symmetry. apply (Z.div_unique _ _ _ (b - 1)); lia.
Qed.

(** X15: the countdown timer is never wasted: when the delay computed by
    [time_until_display_change] has elapsed, [format_countdown] shows a
    different text than before (one day, hour, minute or second less, or
    the next tier down, or "now"). This holds for every remaining time up
    to the [u64] range of [Duration]'s seconds. *)
Theorem countdown_changes_at_scheduled_update (now reset : SystemTime) (x : Z) :
  reset - now < 2 ^ 64 * NANOS_PER_SEC ->
  time_until_display_change now (Some reset) = Some x ->
  format_countdown (now + x) (Some reset) <> format_countdown now (Some reset).
Proof.
  intros Hb Hx.
  destruct (Z.leb_spec now reset) as [Hle|Hlt];
    [|unfold time_until_display_change in Hx; rewrite duration_since_none in Hx by lia;
      discriminate].
  pose proof (Z.div_mod (reset - now) NANOS_PER_SEC ltac:(discriminate)) as Dr.
  pose proof (Z.mod_pos_bound (reset - now) NANOS_PER_SEC ltac:(reflexivity)) as Mr.
  pose proof (format_countdown_by_secs now reset Hle) as F. cbv zeta in F.
  set (s := (reset - now) / NANOS_PER_SEC) in *.
  assert (Hs : 0 <= s < 2 ^ 64) by (unfold NANOS_PER_SEC in *; lia).
  destruct (Z.leb_spec s 60) as [Hfin|Hout].
  - (* final minute: one second later *)
    assert (Ex : x = NANOS_PER_SEC).
    { unfold time_until_display_change in Hx. rewrite duration_since_some in Hx by lia.
      fold s in Hx. rewrite (proj2 (Z.leb_le s 60)) in Hx by lia. congruence. }
    subst x. rewrite (proj2 (proj2 (proj2 F))) by lia.
    destruct (Z.leb_spec (now + NANOS_PER_SEC) reset) as [Hle'|Hlt'].
    + pose proof (format_countdown_by_secs (now + NANOS_PER_SEC) reset Hle') as F'.
      cbv zeta in F'.
      assert (Hs' : (reset - (now + NANOS_PER_SEC)) / NANOS_PER_SEC = s - 1).
      { symmetry. apply (Z.div_unique _ _ _ ((reset - now) mod NANOS_PER_SEC)); lia. }
      rewrite Hs' in F'. rewrite (proj2 (proj2 (proj2 F'))) by lia.
      intro E. apply dec_inj in E; lia.
    + unfold format_countdown at 1. rewrite duration_since_none by lia.
      assert (s = 0) as -> by (unfold NANOS_PER_SEC in *; lia). discriminate.
  - destruct (time_until_display_change_target now reset Hle ltac:(fold s; lia)) as [HB Ht].
    fold s in HB, Ht.
    rewrite Ht in Hx. injection Hx as Ex.
    set (B := if 86400 <=? s then s / 86400 * 86400
              else if 7200 <=? s then s / 3600 * 3600
              else if 3720 <=? s then 3660
              else s / 60 * 60) in *.
    assert (Hle' : now + x <= reset) by (unfold NANOS_PER_SEC in *; lia).
    pose proof (format_countdown_by_secs (now + x) reset Hle') as F'. cbv zeta in F'.
    assert (Hs' : (reset - (now + x)) / NANOS_PER_SEC = B - 1).
    { replace (reset - (now + x)) with ((B - 1) * NANOS_PER_SEC) by lia.
      apply Z.div_mul. discriminate. }
    rewrite Hs' in F'.
    pose proof (Z.div_mod s 60 ltac:(discriminate)).
    pose proof (Z.mod_pos_bound s 60 ltac:(reflexivity)).
    pose proof (Z.div_mod s 3600 ltac:(discriminate)).
    pose proof (Z.mod_pos_bound s 3600 ltac:(reflexivity)).
    pose proof (Z.div_mod s 86400 ltac:(discriminate)).
    pose proof (Z.mod_pos_bound s 86400 ltac:(reflexivity)).
    destruct (Z.leb_spec 86400 s) as [Hd|Hd].
    + (* days *)
      assert (EB : B = s / 86400 * 86400) by (unfold B; zbools_in B; reflexivity).
      rewrite EB in F'. rewrite (proj1 F) by lia.
      destruct (Z.eq_dec (s / 86400) 1) as [D1|D1].
      * rewrite D1 in F' |- *. rewrite (proj1 (proj2 F')) by lia. vm_compute. discriminate.
      * rewrite (proj1 F') by lia. rewrite div_exact_pred by lia.
        intro E. apply str_app_cancel_r, dec_inj in E; lia.
    + destruct (Z.leb_spec 7200 s) as [Hh|Hh].
      * (* hours, two or more *)
        assert (EB : B = s / 3600 * 3600) by (unfold B; zbools_in B; reflexivity).
        rewrite EB in F'. rewrite (proj1 (proj2 F)) by lia.
        rewrite (proj1 (proj2 F')) by lia. rewrite div_exact_pred by lia.
        intro E. apply str_app_cancel_r, dec_inj in E; lia.
      * destruct (Z.leb_spec 3720 s) as [Hm|Hm].
        -- (* one hour: the next text is "60m" *)
           assert (EB : B = 3660) by (unfold B; zbools_in B; reflexivity).
           rewrite EB in F'. rewrite (proj1 (proj2 F)) by lia.
           assert (s / 3600 = 1) as -> by lia.
           rewrite (proj1 (proj2 (proj2 F'))) by lia. vm_compute. discriminate.
        -- (* minutes *)
           assert (EB : B = s / 60 * 60) by (unfold B; zbools_in B; reflexivity).
           rewrite EB in F'. rewrite (proj1 (proj2 (proj2 F))) by lia.
           destruct (Z.eq_dec (s / 60) 1) as [M1|M1].
           ++ rewrite M1 in F' |- *. rewrite (proj2 (proj2 (proj2 F'))) by lia.
              vm_compute. discriminate.
           ++ rewrite (proj1 (proj2 (proj2 F'))) by lia. rewrite div_exact_pred by lia.
              intro E. apply str_app_cancel_r, dec_inj in E; lia.
Qed.

Lemma countdown_changes_at_scheduled_update_witness :
  format_countdown (0 + 1000000000) (Some (10800 * NANOS_PER_SEC)) <>
  format_countdown 0 (Some (10800 * NANOS_PER_SEC)).
Proof.
  apply (countdown_changes_at_scheduled_update 0 (10800 * NANOS_PER_SEC) 1000000000).
  - vm_compute. reflexivity.
  - vm_compute. reflexivity.
Defined.


